(** * FeatureLens: windowed aggregation, threshold evaluation and pipeline
    shutdown, embedded from the Go sources.

    The program:
    - [Go]        machine integers, float64 (the kernel's binary64), time,
                  buffered channels and errors
    - [Message]   internal/message: DynamicMessage and its accessors
    - [Config]    internal/config: features and their thresholds
    - [Log]       the logger, as the entries written
    - [Calc]      internal/pipeline: Calculator (ingest, flush, mean/variance)
    - [Alert]     internal/pipeline: Alerter (gauges and threshold checks)
    - [Pipe]      internal/pipeline: Pipeline.Run and the stage goroutines

    The vocabulary of the properties ([Ingest], [Shutdown], [Examples],
    [Expect], [Emit]) follows, and then the properties themselves:
    [MessageFacts], [IngestFacts], [MeanVarianceFacts], [AlertFacts],
    [FlushFacts], [OnceFacts] and [PipeFacts]. *)

From Stdlib Require Import ZArith Lia Bool List.
From Stdlib Require Import Floats.
From stdpp Require Import base option list strings gmap.

Local Open Scope Z_scope.

(* ===================================================================== *)
(** ** Go base types *)
(* ===================================================================== *)

Module Go.

(** [int64]: a Z together with the two's complement wrap-around that Go
    applies to every arithmetic result. *)
Definition int64_min : Z := - 2 ^ 63.
Definition int64_max : Z := 2 ^ 63 - 1.

Definition wrap64 (z : Z) : Z := (z + 2 ^ 63) mod 2 ^ 64 - 2 ^ 63.

Definition in_int64 (z : Z) : Prop := int64_min <= z <= int64_max.

(** [float64(n)] for an integer [n]: the nearest binary64, ties to even. *)
Definition float64_of_int (n : Z) : float :=
  SF2Prim (binary_normalize prec emax n 0 false).

(** [math.NaN()], [math.IsNaN], [math.Sqrt]. *)
Definition NaN : float := PrimFloat.nan.
Definition IsNaN (f : float) : bool := PrimFloat.is_nan f.
Definition Sqrt (f : float) : float := PrimFloat.sqrt f.

(** [time.Time] as nanoseconds since the zero time, [time.Duration] as
    nanoseconds.  [Truncate] rounds down to a multiple of [d] and returns
    its argument when [d <= 0]. *)
Definition Truncate (t d : Z) : Z := if d <=? 0 then t else t - t mod d.
Definition After (t u : Z) : bool := u <? t.

(** A buffered channel seen from its sender: the queued elements, oldest
    first, and the capacity given to [make]. *)
Record chan (A : Type) : Type := mkChan { buf : list A; cap : nat }.
Arguments mkChan {A} _ _.
Arguments buf {A} _.
Arguments cap {A} _.

(** [select { case ch <- x: ... default: ... }]: the send goes through
    when the buffer has room, and the default branch runs otherwise. *)
Definition trySend {A} (ch : chan A) (x : A) : chan A * bool :=
  if (length (buf ch) <? cap ch)%nat
  then (mkChan (buf ch ++ [x]) (cap ch), true)
  else (ch, false).

(** Errors: the two context errors, the sentinels made by [errors.New],
    and [fmt.Errorf("%w: %w", e1, e2)], which wraps both operands. *)
Inductive error : Type :=
| Canceled
| DeadlineExceeded
| Sentinel (text : string)
| Wrap2 (e1 e2 : error).

Fixpoint error_eqb (a b : error) : bool :=
  match a, b with
  | Canceled, Canceled => true
  | DeadlineExceeded, DeadlineExceeded => true
  | Sentinel s, Sentinel t => String.eqb s t
  | Wrap2 a1 a2, Wrap2 b1 b2 => error_eqb a1 b1 && error_eqb a2 b2
  | _, _ => false
  end.

(** [errors.Is(err, target)]: [err] is [target], or one of the errors it
    wraps is, searched depth first. *)
Fixpoint Is (err target : error) : bool :=
  error_eqb err target ||
  match err with
  | Wrap2 e1 e2 => Is e1 target || Is e2 target
  | _ => false
  end.

End Go.

(* ===================================================================== *)
(** ** internal/message *)
(* ===================================================================== *)

Module Message.

(** The dynamic values a [map[string]interface{}] can hold.  [VNil] is the
    nil interface that JSON [null] decodes to. *)
Inductive value : Type :=
| VNil
| VFloat64 (f : float)
| VInt (n : Z)
| VInt64 (n : Z)
| VFloat32 (f : float)
| VString (s : string)
| VBool (b : bool)
| VOther (rendering : string).

Definition DynamicMessage : Type := gmap string value.

Definition is_nil (v : value) : bool :=
  match v with VNil => true | _ => false end.

(** [GetFloat64]: the converted number, or [None] for a missing key, a
    null and any value that is not of a numeric type. *)
Definition GetFloat64 (dm : gmap string value) (key : string) : option float :=
  match dm !! key with
  | None => None
  | Some VNil => None
  | Some (VFloat64 f) => Some f
  | Some (VInt n) => Some (Go.float64_of_int n)
  | Some (VInt64 n) => Some (Go.float64_of_int n)
  | Some (VFloat32 f) => Some f
  | Some _ => None
  end.

(** [HasNonNull]: the key exists and its value is not null. *)
Definition HasNonNull (dm : gmap string value) (key : string) : bool :=
  match dm !! key with
  | Some v => negb (is_nil v)
  | None => false
  end.

Section Snippet.
(** [fmt.Sprintf("%v", value)] belongs to the Go library; the accessor is
    parametric in it. *)
Variable Sprintf_v : value -> string.

(** [strValue[:maxLength]] on a string whose length exceeds [maxLength]. *)
Definition slice_to (s : string) (n : Z) : string :=
  String.substring 0 (Z.to_nat n) s.

Definition GetFieldSnippet (dm : gmap string value) (fieldName : string)
    (maxLength : Z) : string :=
  match dm !! fieldName with
  | None => "<missing>"
  | Some v =>
      let strValue := Sprintf_v v in
      if maxLength <=? 0 then "..."
      else if maxLength <? Z.of_nat (String.length strValue)
           then slice_to strValue maxLength +:+ "..."
           else strValue
  end.
End Snippet.

End Message.

(* ===================================================================== *)
(** ** internal/config: the part of the settings the pipeline reads *)
(* ===================================================================== *)

Module Config.

(** Every bound is a [*float64]: [None] is the nil pointer. *)
Record Thresholds : Type := mkThresholds {
  NullRate : option float;
  MeanMin : option float;
  MeanMax : option float;
  StdDevMin : option float;
  StdDevMax : option float
}.

Record FeatureConfig : Type := mkFeatureConfig {
  Name : string;
  MetricType : string;
  Thresholds_of : Thresholds
}.

End Config.

(* ===================================================================== *)
(** ** The zap logger, as the list of entries written so far *)
(* ===================================================================== *)

Module Log.

Inductive level : Type := DebugLevel | InfoLevel | WarnLevel | ErrorLevel.

Inductive field : Type :=
| FString (key : string) (s : string)
| FTime (key : string) (t : Z)
| FInt (key : string) (n : Z)
| FFloat (key : string) (f : float).

Record entry : Type := mkEntry {
  lvl : level;
  text : string;
  fields : list field
}.

End Log.

(* ===================================================================== *)
(** ** internal/pipeline: Calculator *)
(* ===================================================================== *)

Module Calc.
Import Go Message Config Log.

(** calculator_types.go *)
Record AggregationResult : Type := mkResult {
  FeatureName : string;
  WindowStart : Z;
  WindowEnd : Z;
  Count : Z;
  NullCount : Z;
  Mean : float;
  Variance : float
}.

Record FeatureStats : Type := mkStats {
  count : Z;
  nullCount : Z;
  sum : float;
  sumSq : float
}.

(** [&FeatureStats{}]: every field at its zero value. *)
Definition zeroStats : FeatureStats := mkStats 0 0 0%float 0%float.

Record windowInfo : Type := mkWindowInfo {
  windowStart : Z;
  windowEnd : Z;
  features : gmap string FeatureStats
}.

Definition newWindowInfo (start end_ : Z) : windowInfo :=
  mkWindowInfo start end_ ∅.

(** The Calculator: configuration, the sending side of [output], the
    logger and the window map.  The mutex only serialises the map accesses
    of the single goroutine running [Run]; the state is threaded
    explicitly. *)
Record Calculator : Type := mkCalculator {
  WindowSize : Z;
  featuresToRun : list FeatureConfig;
  output : chan AggregationResult;
  logger : list entry;
  windowStates : gmap Z windowInfo
}.

Definition NewCalculator (windowSize : Z) (feats : list FeatureConfig)
    (out : chan AggregationResult) (lg : list entry) : Calculator :=
  mkCalculator windowSize feats out
    (lg ++ [mkEntry InfoLevel "Calculator initialized"
              [FInt "window_size" windowSize;
               FInt "configured_features" (Z.of_nat (length feats))]])
    ∅.

Definition log (c : Calculator) (e : entry) : Calculator :=
  mkCalculator (WindowSize c) (featuresToRun c) (output c)
    (logger c ++ [e]) (windowStates c).

Definition setWindows (c : Calculator) (ws : gmap Z windowInfo) : Calculator :=
  mkCalculator (WindowSize c) (featuresToRun c) (output c) (logger c) ws.

Definition setOutput (c : Calculator) (o : chan AggregationResult) : Calculator :=
  mkCalculator (WindowSize c) (featuresToRun c) o (logger c) (windowStates c).

(** The accumulator a [*FeatureStats] for [(windowEnd, featureName)]
    points to, and a write through that pointer. *)
Definition statsAt (c : Calculator) (wEnd : Z) (featureName : string)
    : option FeatureStats :=
  w ← windowStates c !! wEnd; features w !! featureName.

Definition storeStats (c : Calculator) (wEnd : Z) (featureName : string)
    (s : FeatureStats) : Calculator :=
  setWindows c
    (alter (λ w, mkWindowInfo (windowStart w) (windowEnd w)
                   (<[featureName := s]> (features w)))
           wEnd (windowStates c)).

(** calculator.go: getOrCreateFeatureStats *)
Definition getOrCreateFeatureStats (c : Calculator) (wEnd : Z)
    (featureName : string) : Calculator * FeatureStats :=
  let '(c1, windowState) :=
    match windowStates c !! wEnd with
    | Some w => (c, w)
    | None =>
        let start := wEnd - WindowSize c in
        let w := newWindowInfo start wEnd in
        (log (setWindows c (<[wEnd := w]> (windowStates c)))
             (mkEntry DebugLevel "Created new state for window"
                [FTime "window_end" wEnd]), w)
    end in
  match features windowState !! featureName with
  | Some stats => (c1, stats)
  | None => (storeStats c1 wEnd featureName zeroStats, zeroStats)
  end.

(** calculator_metrics.go: processNumericalValue *)
Definition processNumericalValue (stats : FeatureStats)
    (msg : gmap string value) (featureName : string) : FeatureStats * bool :=
  match GetFloat64 msg featureName with
  | None => (stats, false)
  | Some floatVal =>
      (mkStats (count stats) (nullCount stats)
               (sum stats + floatVal)%float
               (sumSq stats + floatVal * floatVal)%float, true)
  end.

(** calculator_metrics.go: processNonNullValue *)
Definition processNonNullValue (c : Calculator) (stats : FeatureStats)
    (msg : gmap string value) (featureCfg : FeatureConfig)
    : Calculator * FeatureStats * bool :=
  if String.eqb (MetricType featureCfg) "numerical"
  then let '(s, ok) := processNumericalValue stats msg (Name featureCfg) in
       (c, s, ok)
  else (log c (mkEntry DebugLevel
                 "Skipping feature update due to unsupported metric type"
                 [FString "feature_name" (Name featureCfg);
                  FString "metric_type" (MetricType featureCfg)]),
        stats, false).

Section Ingest.
Variable Sprintf_v : value -> string.

(** calculator.go: updateFeatureStats *)
Definition updateFeatureStats (c : Calculator) (msg : gmap string value)
    (featureCfg : FeatureConfig) (wEnd : Z) : Calculator :=
  let featureName := Name featureCfg in
  let '(c1, stats) := getOrCreateFeatureStats c wEnd featureName in
  let stats1 := mkStats (wrap64 (count stats + 1)) (nullCount stats)
                        (sum stats) (sumSq stats) in
  if negb (HasNonNull msg featureName) then
    storeStats c1 wEnd featureName
      (mkStats (count stats1) (wrap64 (nullCount stats1 + 1))
               (sum stats1) (sumSq stats1))
  else
    let '(c2, stats2, processed) :=
      processNonNullValue c1 stats1 msg featureCfg in
    let c3 := storeStats c2 wEnd featureName stats2 in
    if negb processed then
      log c3 (mkEntry WarnLevel
                "Non-null value could not be processed for feature"
                [FString "feature_name" featureName;
                 FString "metric_type" (MetricType featureCfg);
                 FString "value_snippet"
                   (GetFieldSnippet Sprintf_v msg featureName 50);
                 FTime "window_end" wEnd])
    else c3.

(** calculator.go: processMessage, with [time.Now()] as [now]. *)
Definition processMessage (c : Calculator) (msg : gmap string value)
    (now : Z) : Calculator :=
  let windowDuration := WindowSize c in
  let wEnd := Truncate now windowDuration + windowDuration in
  fold_left (λ c' featureCfg, updateFeatureStats c' msg featureCfg wEnd)
            (featuresToRun c) c.
End Ingest.

(** calculator_metrics.go: calculateMeanVariance.  The result is the pair
    (mean, variance) together with what the function writes to the logger. *)
(** The constant [1e-9] as the binary64 the Go compiler rounds it to. *)
Definition tiny : float := 0x1.12e0be826d695p-30%float.

Definition calculateMeanVariance (stats : FeatureStats) (featureName : string)
    (wStart : Z) : float * float * list entry :=
  let validCount := wrap64 (count stats - nullCount stats) in
  if validCount <=? 0 then (NaN, NaN, [])
  else
    let mean := (sum stats / float64_of_int validCount)%float in
    let meanSq := (mean * mean)%float in
    let sumSqAvg := (sumSq stats / float64_of_int validCount)%float in
    let variance := (sumSqAvg - meanSq)%float in
    if (variance <? 0)%float && (- tiny <? variance)%float then
      (mean, 0%float, [])
    else if (variance <? 0)%float then
      (mean, 0%float,
       [mkEntry WarnLevel "Negative variance calculated, setting to 0"
          [FString "feature_name" featureName;
           FTime "window_start" wStart;
           FFloat "calculated_variance" variance;
           FInt "valid_count" validCount;
           FFloat "sum_sq" (sumSq stats);
           FFloat "mean" mean]])
    else (mean, variance, []).

Definition logAll (c : Calculator) (es : list entry) : Calculator :=
  fold_left log es c.

(** The non-blocking [select] at the end of the flush loop body. *)
Definition sendResult (c : Calculator) (result : AggregationResult)
    : Calculator :=
  let '(out, sent) := trySend (output c) result in
  if sent then
    log (setOutput c out)
        (mkEntry DebugLevel "Sent aggregation result"
           [FString "feature_name" (FeatureName result);
            FTime "window_end" (WindowEnd result)])
  else
    log c
        (mkEntry WarnLevel "Calculator output channel full, dropping result"
           [FString "feature_name" (FeatureName result);
            FTime "window_end" (WindowEnd result)]).

Section Flush.
(** The order in which a [range] over a Go map yields its entries is
    not specified; the flush is parametric in it. *)
Variable rangeW : gmap Z windowInfo -> list (Z * windowInfo).
Variable rangeF : gmap string FeatureStats -> list (string * FeatureStats).

(** calculator.go: collectAndRemoveCompletedWindows *)
Definition collectAndRemoveCompletedWindows (c : Calculator) (cutoffTime : Z)
    : Calculator * gmap Z windowInfo :=
  let '(windowsToProcess, live) :=
    fold_left
      (λ (acc : gmap Z windowInfo * gmap Z windowInfo)
         (kv : Z * windowInfo),
         let '(toProcess, states) := acc in
         let '(wEnd, windowState) := kv in
         if negb (After wEnd cutoffTime)
         then (<[wEnd := windowState]> toProcess, delete wEnd states)
         else (toProcess, states))
      (rangeW (windowStates c))
      (∅, windowStates c) in
  (setWindows c live, windowsToProcess).

(** calculator.go: processAndSendWindowResults *)
Definition processAndSendWindowResults (c : Calculator) (wEnd : Z)
    (windowState : windowInfo) : Calculator :=
  let c0 :=
    log c (mkEntry DebugLevel "Flushing window"
             [FTime "window_end" wEnd;
              FInt "feature_count"
                (Z.of_nat (size (features windowState)))]) in
  fold_left
    (λ (c' : Calculator) (kv : string * FeatureStats),
       let '(featureName, stats) := kv in
       if count stats =? 0 then c'
       else
         let '(mean, variance, lg) :=
           calculateMeanVariance stats featureName
             (windowStart windowState) in
         let result :=
           mkResult featureName (windowStart windowState) wEnd
                    (count stats) (nullCount stats) mean variance in
         sendResult (logAll c' lg) result)
    (rangeF (features windowState)) c0.

(** calculator.go: flushWindows *)
Definition flushWindows (c : Calculator) (cutoffTime : Z) : Calculator :=
  let '(c1, completedWindows) :=
    collectAndRemoveCompletedWindows c cutoffTime in
  if (size completedWindows =? 0)%nat then c1
  else
    let c2 :=
      log c1 (mkEntry DebugLevel "Processing completed windows"
                [FTime "cutoff_time" cutoffTime;
                 FInt "window_count"
                   (Z.of_nat (size completedWindows))]) in
    fold_left
      (λ (c' : Calculator) (kv : Z * windowInfo),
         processAndSendWindowResults c' kv.1 kv.2)
      (rangeW completedWindows) c2.

(** calculator.go: Run.  What the [select] of one loop iteration
    receives, with the instants the run time hands to it. *)
Inductive event : Type :=
| Received (msg : gmap string value) (now : Z)
| InputClosed (now : Z)
| Tick (tickTime : Z)
| CtxDone (now : Z) (ctxErr : error).

Variable Sprintf_v : value -> string.

Definition info (c : Calculator) (s : string) : Calculator :=
  log c (mkEntry InfoLevel s []).

(** The loop over the events it selects; [Some r] is the value [Run]
    returned, [None] means that the loop is still waiting. *)
Fixpoint loop (c : Calculator) (evs : list event)
    : Calculator * option (option error) :=
  match evs with
  | [] => (c, None)
  | Received msg now :: rest =>
      loop (processMessage Sprintf_v c msg now) rest
  | InputClosed now :: _ =>
      let c1 := info c
        "Calculator input channel closed. Processing final windows..." in
      (info (flushWindows c1 now) "Calculator loop stopped.", Some None)
  | Tick tickTime :: rest =>
      let c1 := log c (mkEntry DebugLevel
                   "Ticker fired, processing completed windows"
                   [FTime "tick_time" tickTime]) in
      loop (flushWindows c1 tickTime) rest
  | CtxDone now ctxErr :: _ =>
      let c1 := info c
        "Context cancelled, stopping calculator. Processing final windows..." in
      (info (flushWindows c1 now) "Calculator loop stopped.",
       Some (Some ctxErr))
  end.

Definition Run (c : Calculator) (evs : list event)
    : Calculator * option (option error) :=
  loop (info c "Starting calculator loop...") evs.
End Flush.

End Calc.

(* ===================================================================== *)
(** ** internal/pipeline: Alerter, with its Prometheus collectors *)
(* ===================================================================== *)

Module Alert.
Import Go Config Log Calc.

(** The package-level collectors: five gauge vectors labelled by feature
    name and one counter vector labelled by (feature, check, comparison). *)
Record Metrics : Type := mkMetrics {
  featureCount : gmap string float;
  featureNullCount : gmap string float;
  featureNullRate : gmap string float;
  featureMean : gmap string float;
  featureStdDev : gmap string float;
  featureThresholdViolations : gmap (string * string * string) nat
}.

Definition noMetrics : Metrics := mkMetrics ∅ ∅ ∅ ∅ ∅ ∅.

Definition violations (m : Metrics) (k : string * string * string) : nat :=
  default 0%nat (featureThresholdViolations m !! k).

(** [featureThresholdViolations.WithLabelValues(...).Inc()] *)
Definition Inc (m : Metrics) (k : string * string * string) : Metrics :=
  mkMetrics (featureCount m) (featureNullCount m) (featureNullRate m)
    (featureMean m) (featureStdDev m)
    (<[k := S (violations m k)]> (featureThresholdViolations m)).

Record Alerter : Type := mkAlerter {
  features : gmap string FeatureConfig;
  logger : list entry
}.

Definition NewAlerter (feats : list FeatureConfig) (lg : list entry)
    : Alerter :=
  let featureMap :=
    fold_left (λ (m : gmap string FeatureConfig) f, <[Name f := f]> m)
              feats ∅ in
  mkAlerter featureMap
    (lg ++ [mkEntry DebugLevel "Alerter initialized"
              [FInt "feature_count" (Z.of_nat (size featureMap))]]).

(** What the checks act on: the logger and the collectors. *)
Definition sinks : Type := (list entry * Metrics)%type.

Definition violation (st : sinks) (text : string) (featureName : string)
    (wEnd : Z) (actual threshold : float) (check cmp : string) : sinks :=
  (st.1 ++ [mkEntry WarnLevel text
              [FString "feature_name" featureName;
               FTime "window_end" wEnd;
               FFloat "actual" actual;
               FFloat "threshold" threshold;
               FString "comparison" cmp]],
   Inc st.2 (featureName, check, cmp)).

Definition checkNullRate (st : sinks) (featureName : string) (wEnd : Z)
    (actualRate : float) (threshold : option float) : sinks :=
  match threshold with
  | None => st
  | Some t =>
      if IsNaN actualRate then st
      else if (t <? actualRate)%float
      then violation st "Null Rate violation" featureName wEnd
             actualRate t "null_rate" ">"
      else st
  end.

Definition checkMean (st : sinks) (featureName : string) (wEnd : Z)
    (actualMean : float) (minThreshold maxThreshold : option float) : sinks :=
  if IsNaN actualMean then st
  else
    let st1 :=
      match minThreshold with
      | Some t =>
          if (actualMean <? t)%float
          then violation st "Mean violation (Min)" featureName wEnd
                 actualMean t "mean" "<"
          else st
      | None => st
      end in
    match maxThreshold with
    | Some t =>
        if (t <? actualMean)%float
        then violation st1 "Mean violation (Max)" featureName wEnd
               actualMean t "mean" ">"
        else st1
    | None => st1
    end.

Definition checkStdDev (st : sinks) (featureName : string) (wEnd : Z)
    (actualStdDev : float) (minThreshold maxThreshold : option float)
    : sinks :=
  if IsNaN actualStdDev then st
  else
    let st1 :=
      match minThreshold with
      | Some t =>
          if (actualStdDev <? t)%float
          then violation st "StdDev violation (Min)" featureName wEnd
                 actualStdDev t "stddev" "<"
          else st
      | None => st
      end in
    match maxThreshold with
    | Some t =>
        if (t <? actualStdDev)%float
        then violation st1 "StdDev violation (Max)" featureName wEnd
               actualStdDev t "stddev" ">"
        else st1
    | None => st1
    end.

Definition logStats (st : sinks) (result : AggregationResult)
    (nullRate stdDev : float) : sinks :=
  let fields0 :=
    [FString "feature_name" (FeatureName result);
     FTime "window_end" (WindowEnd result);
     FInt "count" (Count result)] in
  let fields1 :=
    if negb (IsNaN nullRate) then fields0 ++ [FFloat "null_rate" nullRate]
    else fields0 in
  let fields2 :=
    if negb (IsNaN (Mean result)) then fields1 ++ [FFloat "mean" (Mean result)]
    else fields1 in
  let fields3 :=
    if negb (IsNaN stdDev) then fields2 ++ [FFloat "stddev" stdDev]
    else fields2 in
  (st.1 ++ [mkEntry InfoLevel "Feature stats processed" fields3], st.2).

(** The two derived metrics of processResult. *)
Definition nullRateVal (result : AggregationResult) : float :=
  if 0 <? Count result
  then (float64_of_int (NullCount result) / float64_of_int (Count result))%float
  else NaN.

Definition stdDevVal (result : AggregationResult) : float :=
  if negb (IsNaN (Variance result)) && (0 <=? Variance result)%float
  then Sqrt (Variance result)
  else NaN.

(** [gauge.WithLabelValues(featureName).Set(v)] when [v] is a number and
    [Set(0)] when it is NaN. *)
Definition setOrZero (g : gmap string float) (featureName : string)
    (v : float) : gmap string float :=
  if negb (IsNaN v) then <[featureName := v]> g
  else <[featureName := 0%float]> g.

Definition processResult (a : Alerter) (m : Metrics)
    (result : AggregationResult) : Alerter * Metrics :=
  let featureName := FeatureName result in
  match features a !! featureName with
  | None =>
      (mkAlerter (features a)
         (logger a ++
          [mkEntry WarnLevel
             "Received result for unconfigured feature, skipping metric update"
             [FString "feature_name" featureName;
              FTime "window_start" (WindowStart result);
              FTime "window_end" (WindowEnd result)]]), m)
  | Some featureCfg =>
      let nullRate := nullRateVal result in
      let stdDev := stdDevVal result in
      let m1 :=
        mkMetrics
          (<[featureName := float64_of_int (Count result)]> (featureCount m))
          (<[featureName := float64_of_int (NullCount result)]>
             (featureNullCount m))
          (setOrZero (featureNullRate m) featureName nullRate)
          (setOrZero (featureMean m) featureName (Mean result))
          (setOrZero (featureStdDev m) featureName stdDev)
          (featureThresholdViolations m) in
      let thresholds := Thresholds_of featureCfg in
      let st0 : sinks := (logger a, m1) in
      let st1 := checkNullRate st0 featureName (WindowEnd result) nullRate
                   (NullRate thresholds) in
      let st2 := checkMean st1 featureName (WindowEnd result) (Mean result)
                   (MeanMin thresholds) (MeanMax thresholds) in
      let st3 := checkStdDev st2 featureName (WindowEnd result) stdDev
                   (StdDevMin thresholds) (StdDevMax thresholds) in
      let st4 := logStats st3 result nullRate stdDev in
      (mkAlerter (features a) st4.1, st4.2)
  end.

End Alert.

(* ===================================================================== *)
(** ** internal/pipeline: Pipeline.Run and the stage goroutines *)
(* ===================================================================== *)

Module Pipe.
Import Go.

(** errors.go *)
Definition ErrConsumerRunFailed : error := Sentinel "consumer component failed".
Definition ErrCalculatorRunFailed : error :=
  Sentinel "calculator component failed".

(** What a stage goroutine sends on [errCh], given the value its
    component's [Run] returned ([None] is nil). *)
Definition runConsumer (res : option error) : option error :=
  match res with
  | Some err =>
      if negb (Is err Canceled) then Some (Wrap2 ErrConsumerRunFailed err)
      else None
  | None => None
  end.

Definition runCalculator (res : option error) : option error :=
  match res with
  | Some err =>
      if negb (Is err Canceled) then Some (Wrap2 ErrCalculatorRunFailed err)
      else None
  | None => None
  end.


(** The tail of Run, after [wg.Wait()]. *)
Definition result_of (firstErr : option error) : option error :=
  match firstErr with
  | Some e => if negb (Is e Canceled) then Some e else None
  | None => None
  end.

(** Pipeline.Run.  [ctx] is [ctx.Err()] once [ctx.Done()] is closed and
    [None] before; [pipelineErr] is the buffer of the error channel,
    oldest first.  The [select] takes either branch that is ready, and
    the function then returns after the stages have finished. *)
Inductive Run (ctx : option error) (pipelineErr : list error)
    : option error -> Prop :=
| Run_ctx_done ctxErr :
    ctx = Some ctxErr -> Run ctx pipelineErr (result_of (Some ctxErr))
| Run_received err rest :
    pipelineErr = err :: rest -> Run ctx pipelineErr (result_of (Some err)).

End Pipe.

(* ===================================================================== *)
(** ** internal/pipeline/alerter.go: the Alerter that only logs *)
(* ===================================================================== *)

Module AlertLog.
Import Go Config Log Calc.

Record Alerter : Type := mkAlerter {
  features : gmap string FeatureConfig;
  logger : list entry
}.

Definition NewAlerter (feats : list FeatureConfig) (lg : list entry)
    : Alerter :=
  let featureMap :=
    fold_left (λ (m : gmap string FeatureConfig) f, <[Name f := f]> m)
              feats ∅ in
  mkAlerter featureMap
    (lg ++ [mkEntry DebugLevel "Alerter initialized"
              [FInt "feature_count" (Z.of_nat (size featureMap))]]).

Definition violation (lg : list entry) (text : string) (featureName : string)
    (wEnd : Z) (actual threshold : float) (cmp : string) : list entry :=
  lg ++ [mkEntry WarnLevel text
           [FString "feature_name" featureName;
            FTime "window_end" wEnd;
            FFloat "actual" actual;
            FFloat "threshold" threshold;
            FString "comparison" cmp]].

Definition checkNullRate (lg : list entry) (featureName : string) (wEnd : Z)
    (actualRate : float) (threshold : option float) : list entry :=
  match threshold with
  | None => lg
  | Some t =>
      if IsNaN actualRate then lg
      else if (t <? actualRate)%float
      then violation lg "Null Rate violation" featureName wEnd actualRate t ">"
      else lg
  end.

Definition checkMean (lg : list entry) (featureName : string) (wEnd : Z)
    (actualMean : float) (minThreshold maxThreshold : option float)
    : list entry :=
  if IsNaN actualMean then lg
  else
    let lg1 :=
      match minThreshold with
      | Some t =>
          if (actualMean <? t)%float
          then violation lg "Mean violation (Min)" featureName wEnd
                 actualMean t "<"
          else lg
      | None => lg
      end in
    match maxThreshold with
    | Some t =>
        if (t <? actualMean)%float
        then violation lg1 "Mean violation (Max)" featureName wEnd
               actualMean t ">"
        else lg1
    | None => lg1
    end.

Definition checkStdDev (lg : list entry) (featureName : string) (wEnd : Z)
    (actualStdDev : float) (minThreshold maxThreshold : option float)
    : list entry :=
  if IsNaN actualStdDev then lg
  else
    let lg1 :=
      match minThreshold with
      | Some t =>
          if (actualStdDev <? t)%float
          then violation lg "StdDev violation (Min)" featureName wEnd
                 actualStdDev t "<"
          else lg
      | None => lg
      end in
    match maxThreshold with
    | Some t =>
        if (t <? actualStdDev)%float
        then violation lg1 "StdDev violation (Max)" featureName wEnd
               actualStdDev t ">"
        else lg1
    | None => lg1
    end.

Definition logStats (lg : list entry) (result : AggregationResult)
    (nullRate stdDev : float) : list entry :=
  let fields0 :=
    [FString "feature_name" (FeatureName result);
     FTime "window_end" (WindowEnd result);
     FInt "count" (Count result)] in
  let fields1 :=
    if negb (IsNaN nullRate) then fields0 ++ [FFloat "null_rate" nullRate]
    else fields0 in
  let fields2 :=
    if negb (IsNaN (Mean result)) then fields1 ++ [FFloat "mean" (Mean result)]
    else fields1 in
  let fields3 :=
    if negb (IsNaN stdDev) then fields2 ++ [FFloat "stddev" stdDev]
    else fields2 in
  lg ++ [mkEntry InfoLevel "Feature stats processed" fields3].

(** checkThresholds: the Alerter after one result. *)
Definition checkThresholds (a : Alerter) (result : AggregationResult)
    : Alerter :=
  match features a !! FeatureName result with
  | None =>
      mkAlerter (features a)
        (logger a ++
         [mkEntry WarnLevel "Received result for unconfigured feature"
            [FString "feature_name" (FeatureName result);
             FTime "window_start" (WindowStart result);
             FTime "window_end" (WindowEnd result)]])
  | Some featureCfg =>
      let thresholds := Thresholds_of featureCfg in
      let featureName := FeatureName result in
      let nullRate :=
        if 0 <? Count result
        then (float64_of_int (NullCount result) /
              float64_of_int (Count result))%float
        else NaN in
      let stdDev :=
        if negb (IsNaN (Variance result)) && (0 <=? Variance result)%float
        then Sqrt (Variance result)
        else NaN in
      let lg1 := checkNullRate (logger a) featureName (WindowEnd result)
                   nullRate (NullRate thresholds) in
      let lg2 := checkMean lg1 featureName (WindowEnd result) (Mean result)
                   (MeanMin thresholds) (MeanMax thresholds) in
      let lg3 := checkStdDev lg2 featureName (WindowEnd result) stdDev
                   (StdDevMin thresholds) (StdDevMax thresholds) in
      mkAlerter (features a) (logStats lg3 result nullRate stdDev)
  end.

End AlertLog.

(* ===================================================================== *)
(** ** internal/config: the settings and their validation *)
(* ===================================================================== *)

Module Settings.
Import Go Config.

Record KafkaConfig : Type := mkKafkaConfig {
  Brokers : list string;
  Topic : string;
  GroupID : string
}.

Record PipelineConfig : Type := mkPipelineConfig {
  WindowSize : Z
}.

Record LogConfig : Type := mkLogConfig {
  Level : string;
  Format : string;
  FileLoggingEnabled : bool;
  Directory : string;
  Filename : string;
  MaxSize : Z;
  MaxBackups : Z;
  MaxAge : Z;
  Compress : bool
}.

Record Settings : Type := mkSettings {
  Kafka : KafkaConfig;
  Pipeline : PipelineConfig;
  Features : list FeatureConfig;
  Log : LogConfig
}.






End Settings.

(* ===================================================================== *)
(** ** internal/pipeline/consumer.go *)
(* ===================================================================== *)

(** [err.Error()], as [zap.Error] writes it to the log. *)
Module ErrorText.
Import Go.

Fixpoint Error_text (e : error) : string :=
  match e with
  | Canceled => "context canceled"
  | DeadlineExceeded => "context deadline exceeded"
  | Sentinel s => s
  | Wrap2 a b => Error_text a +:+ ": " +:+ Error_text b
  end.

Definition zapError (e : error) : Log.field :=
  Log.FString "error" (Error_text e).

End ErrorText.

Module Consumer.
Import Go Log Settings ErrorText.

(** errors.go *)
Definition ErrInvalidKafkaConfig : error :=
  Sentinel "invalid Kafka configuration provided".
Definition ErrKafkaFetchFailed : error :=
  Sentinel "failed to fetch message from Kafka".
Definition ErrConsumerCreationFailed : error :=
  Sentinel "failed to create consumer".

(** The Consumer: its configuration, the payloads it has put on its
    output channel, oldest first, and its logger.  The Kafka reader is
    seen through what its calls return. *)
Record Consumer : Type := mkConsumer {
  cfg : KafkaConfig;
  output : list string;
  logger : list entry
}.

Definition log (c : Consumer) (lvl : level) (text : string)
    (fs : list field) : Consumer :=
  mkConsumer (cfg c) (output c) (logger c ++ [mkEntry lvl text fs]).

(** NewConsumer: the error with the log it leaves, or the consumer
    around a new reader.  The list of brokers is logged joined by commas;
    the fields that only show the reader's own defaults are left out of
    the entry. *)
Definition NewConsumer (kcfg : KafkaConfig) (lg : list entry)
    : error * list entry + Consumer :=
  if (length (Brokers kcfg) =? 0)%nat || String.eqb (Topic kcfg) ""
     || String.eqb (GroupID kcfg) ""
  then inl (ErrInvalidKafkaConfig,
            lg ++ [mkEntry ErrorLevel "Kafka configuration validation failed"
                     [FString "brokers" (String.concat "," (Brokers kcfg));
                      FString "topic" (Topic kcfg);
                      FString "group_id" (GroupID kcfg)]])
  else inr (mkConsumer kcfg []
              (lg ++ [mkEntry InfoLevel "Kafka consumer created"
                        [FString "topic" (Topic kcfg);
                         FString "group_id" (GroupID kcfg);
                         FString "brokers"
                           (String.concat "," (Brokers kcfg))]])).

(** One turn of the loop: what FetchMessage returned and, for a message,
    whether the send went through ([None]) or the select took
    [ctx.Done()] instead ([Some] of [ctx.Err()]). *)
Inductive fetch : Type :=
| FetchError (err : error)
| Fetched (value : string) (interrupted : option error).

(** The [for] loop of Run; [Some r] is the value returned, [None] means
    that the loop is blocked in its next fetch. *)
Fixpoint fetchLoop (c : Consumer) (evs : list fetch)
    : Consumer * option (option error) :=
  match evs with
  | [] => (c, None)
  | FetchError err :: _ =>
      if Is err Canceled || Is err DeadlineExceeded then
        (log c DebugLevel
           "Context cancelled or deadline exceeded, stopping consumer fetch loop."
           [zapError err], Some (Some Canceled))
      else
        (log c ErrorLevel "Error fetching message from Kafka" [zapError err],
         Some (Some (Wrap2 ErrKafkaFetchFailed err)))
  | Fetched value None :: rest =>
      fetchLoop (mkConsumer (cfg c) (output c ++ [value]) (logger c)) rest
  | Fetched value (Some ctxErr) :: _ =>
      (log c DebugLevel "Context cancelled while sending message downstream."
         [zapError ctxErr], Some (Some Canceled))
  end.

(** Run, with the deferred closing of the reader ([closeErr] is what
    [reader.Close()] returns). *)
Definition Run (c : Consumer) (evs : list fetch) (closeErr : option error)
    : Consumer * option (option error) :=
  let c0 := log c InfoLevel "Starting Kafka consumer loop..." [] in
  let '(c1, r) := fetchLoop c0 evs in
  match r with
  | None => (c1, None)
  | Some e =>
      let c2 := log c1 InfoLevel "Closing Kafka consumer reader..." [] in
      let c3 :=
        match closeErr with
        | Some err =>
            log c2 ErrorLevel "Failed to close Kafka reader cleanly"
              [zapError err]
        | None => log c2 InfoLevel "Kafka consumer reader closed successfully." []
        end in
      (log c3 InfoLevel "Kafka consumer loop stopped." [], Some e)
  end.

End Consumer.

(* ===================================================================== *)
(** ** internal/message: parsing, and the parser stage of the pipeline *)
(* ===================================================================== *)

Module Parser.
Import Go Message Log ErrorText.

Section Parse.
(** [json.Unmarshal] into a map belongs to the Go library, and the
    sentinel is declared in a file of the package that is not at
    hand: both are parameters. *)
Variable json_Unmarshal : string -> error + gmap string value.
Variable ErrJSONUnmarshalFailed : error.

(** message: ParseDynamicJSON *)
Definition ParseDynamicJSON (data : string) : error + gmap string value :=
  match json_Unmarshal data with
  | inl err => inl (Wrap2 ErrJSONUnmarshalFailed err)
  | inr msg => inr msg
  end.

(** What the outer [select] of runParser receives; for a raw message,
    [interrupted] is [Some] of [ctx.Err()] when the inner [select] took
    [ctx.Done()] instead of the send. *)
Inductive parserEvent : Type :=
| RawMessage (data : string) (interrupted : option error)
| RawClosed
| ParserCtxDone (ctxErr : error).

(** The parser stage: the messages put on the parsed channel, oldest
    first, the log, and whether the goroutine has returned (and closed
    the parsed channel). *)
Record parser : Type := mkParser {
  parsed : list (gmap string value);
  plog : list entry;
  closed : bool
}.

Definition plogged (p : parser) (lvl : level) (text : string)
    (fs : list field) : parser :=
  mkParser (parsed p) (plog p ++ [mkEntry lvl text fs]) (closed p).

Definition finish (p : parser) : parser :=
  mkParser (parsed p)
    (plog p ++ [mkEntry DebugLevel "Parsed messages channel closed" []])
    true.

Fixpoint parseLoop (p : parser) (evs : list parserEvent) : parser :=
  match evs with
  | [] => p
  | RawClosed :: _ =>
      finish (plogged p DebugLevel
                "Parser finished (raw message channel closed)." [])
  | ParserCtxDone ctxErr :: _ =>
      finish (plogged p DebugLevel
                "Parser context cancelled while waiting for raw message."
                [zapError ctxErr])
  | RawMessage data interrupted :: rest =>
      match ParseDynamicJSON data with
      | inl err =>
          parseLoop (plogged p WarnLevel "Failed to parse message, skipping"
                       [zapError err]) rest
      | inr parsedMsg =>
          match interrupted with
          | None =>
              parseLoop (mkParser (parsed p ++ [parsedMsg]) (plog p)
                                  (closed p)) rest
          | Some ctxErr =>
              finish (plogged p DebugLevel
                        "Parser context cancelled during send."
                        [zapError ctxErr])
          end
      end
  end.

(** Pipeline.runParser *)
Definition runParser (lg : list entry) (evs : list parserEvent) : parser :=
  parseLoop (mkParser [] (lg ++ [mkEntry DebugLevel
                                   "Starting parser goroutine..." []])
                      false) evs.
End Parse.

End Parser.

(* ===================================================================== *)
(** ** internal/pipeline/pipeline.go: New; cmd/featurelens: the exit *)
(* ===================================================================== *)

Module Build.
Import Go Config Log Settings.

Definition channelBufferSize : nat := 100.

Record Pipeline : Type := mkPipeline {
  cfg : Settings;
  consumer : Consumer.Consumer;
  calculator : Calc.Calculator;
  alerter : Alert.Alerter;
  logger : list entry
}.

(** New: the components wired to their channels, or the error of the
    consumer wrapped.  The named loggers all write to one sink: each
    component starts from the log as it is when the component is made. *)
Definition New (s : Settings) (lg : list entry) : error + Pipeline :=
  let debug (l : list entry) (text : string) (fs : list field) :=
    l ++ [mkEntry DebugLevel text fs] in
  let lg1 := debug lg "Creating pipeline components..." [] in
  let lg2 := debug lg1 "Channels created"
               [FInt "bufferSize" (Z.of_nat channelBufferSize)] in
  match Consumer.NewConsumer (Kafka s) lg2 with
  | inl (err, _) => inl (Wrap2 Consumer.ErrConsumerCreationFailed err)
  | inr consumerInstance =>
      let lg3 := debug (Consumer.logger consumerInstance) "Consumer created" [] in
      let calculatorInstance :=
        Calc.NewCalculator (WindowSize (Settings.Pipeline s)) (Features s)
          (mkChan [] channelBufferSize) lg3 in
      let lg4 := debug (Calc.logger calculatorInstance) "Calculator created" [] in
      let alerterInstance := Alert.NewAlerter (Features s) lg4 in
      let lg5 := debug (Alert.logger alerterInstance) "Alerter created" [] in
      inr (mkPipeline s consumerInstance calculatorInstance alerterInstance
             (lg5 ++ [mkEntry InfoLevel
                        "Pipeline instance created successfully" []]))
  end.

(** main, after Run has returned [runErr]: the reason logged and the exit
    status. *)
Definition shutdownReason (runErr : option error) : string :=
  match runErr with
  | None => "gracefully"
  | Some e =>
      if Is e Canceled then "gracefully via signal"
      else "due to pipeline error"
  end.

Definition exitStatus (runErr : option error) : Z :=
  match runErr with
  | Some e => if negb (Is e Canceled) then 1 else 0
  | None => 0
  end.

End Build.

(* ===================================================================== *)
(** ** internal/message: GetTime *)
(* ===================================================================== *)

Module Timestamps.
Import Message.

(** The layouts of the Go library that GetTime names. *)
Definition RFC3339Nano : string := "2006-01-02T15:04:05.999999999Z07:00".
Definition RFC3339 : string := "2006-01-02T15:04:05Z07:00".

Definition formats : list string :=
  [RFC3339Nano; RFC3339; "2006-01-02T15:04:05Z07:00"; "2006-01-02 15:04:05"].

Section GetTime.
(** [time.Parse layout value]: the instant, or [None] for an error. *)
Variable time_Parse : string -> string -> option Z.

(** The [for] loop over the formats. *)
Fixpoint firstParse (fs : list string) (timeStr : string) : option Z :=
  match fs with
  | [] => None
  | format :: rest =>
      match time_Parse format timeStr with
      | Some t => Some t
      | None => firstParse rest timeStr
      end
  end.

Definition GetTime (dm : gmap string value) (key : string) : option Z :=
  match dm !! key with
  | None => None
  | Some VNil => None
  | Some (VString timeStr) => firstParse formats timeStr
  | Some _ => None
  end.
End GetTime.

End Timestamps.

(* ===================================================================== *)
(** ** internal/logging *)
(* ===================================================================== *)

Module Logging.
Import Settings.

(** zapcore.Level *)
Definition DebugLevel : Z := -1.
Definition InfoLevel : Z := 0.
Definition WarnLevel : Z := 1.
Definition ErrorLevel : Z := 2.

(** The cores NewLogger builds, each with the level it was given. *)
Inductive core : Type :=
| ConsoleInfo (level : Z)
| ConsoleError (level : Z)
| File (level : Z).

(** Whether a core writes a record of level [lvl]: the two
    LevelEnablerFunc closures of the console, and the level itself as
    enabler of the file core. *)
Definition Enabled (c : core) (lvl : Z) : bool :=
  match c with
  | ConsoleInfo level => (level <=? lvl) && (lvl <? ErrorLevel)
  | ConsoleError level => (level <=? lvl) && (ErrorLevel <=? lvl)
  | File level => level <=? lvl
  end.

Inductive failure : Type :=
| MkdirFailed (dir : string) (text : string)
| NoOutputs.

Record Logger : Type := mkLogger {
  level_of : Z;
  cores : list core;
  development : bool
}.

Section NewLogger.
(** [strings.ToLower] and [zapcore.Level.UnmarshalText] ([None] for an
    error) belong to libraries. *)
Variable ToLower : string -> string.
Variable UnmarshalText : string -> option Z.

(** parseLevel: the level and whether an error is returned with it. *)
Definition parseLevel (levelStr : string) : Z * bool :=
  match UnmarshalText (ToLower levelStr) with
  | None => (InfoLevel, true)
  | Some level => (level, false)
  end.

(** NewLogger; [mkdirErr] is what [os.MkdirAll] returns when it is
    called. *)
Definition NewLogger (cfg : LogConfig) (mkdirErr : option string)
    : failure + Logger :=
  let level :=
    let '(l, failed) := parseLevel (Level cfg) in
    if failed then InfoLevel else l in
  let isConsole := String.eqb (ToLower (Format cfg)) "console" in
  let isDevelopment := (level =? DebugLevel) || isConsole in
  let cores0 :=
    if isConsole then [ConsoleInfo level; ConsoleError level] else [] in
  let withFile (k : list core -> failure + Logger) : failure + Logger :=
    if FileLoggingEnabled cfg then
      match mkdirErr with
      | Some text => inl (MkdirFailed (Directory cfg) text)
      | None => k (cores0 ++ [File level])
      end
    else k cores0 in
  withFile (λ cores1,
    if (length cores1 =? 0)%nat then inl NoOutputs
    else inr (mkLogger level cores1 isDevelopment)).
End NewLogger.

End Logging.

(* ===================================================================== *)
(** ** Vocabulary of the properties *)
(* ===================================================================== *)

(** Runs of ingest operations on one accumulator, and the quantities the
    properties of the accumulator are stated with. *)
Module Ingest.
Import Go Message Config Log Calc.

(** What one call of updateFeatureStats does to the accumulator it is
    given, read off the body of the function. *)
Definition bump (msg : gmap string value) (cfg : FeatureConfig)
    (s : FeatureStats) : FeatureStats :=
  let n := wrap64 (count s + 1) in
  if HasNonNull msg (Name cfg) then
    if String.eqb (MetricType cfg) "numerical" then
      match GetFloat64 msg (Name cfg) with
      | Some v => mkStats n (nullCount s) (sum s + v)%float
                    (sumSq s + v * v)%float
      | None => mkStats n (nullCount s) (sum s) (sumSq s)
      end
    else mkStats n (nullCount s) (sum s) (sumSq s)
  else mkStats n (wrap64 (nullCount s + 1)) (sum s) (sumSq s).

(** Ingesting a list of messages into the pair [(w, Name cfg)]. *)
Definition ingestAll (Sprintf_v : value -> string) (c : Calculator)
    (cfg : FeatureConfig) (w : Z) (msgs : list (gmap string value))
    : Calculator :=
  fold_left (λ c' msg, updateFeatureStats Sprintf_v c' msg cfg w) msgs c.

(** The messages that carry no value for a field, and the numbers the
    others convert to. *)
Definition nulls (name : string) (msgs : list (gmap string value)) : Z :=
  Z.of_nat (length (List.filter (λ m, negb (HasNonNull m name)) msgs)).

Definition numbers (name : string) (msgs : list (gmap string value))
    : list float :=
  omap (λ m, GetFloat64 m name) msgs.

(** The reading of [nullCount] as "null, absent or unconvertible": the
    messages from which no number can be had for the field. *)
Definition withoutNumber (name : string) (msgs : list (gmap string value))
    : Z :=
  Z.of_nat (length (List.filter
    (λ m, match GetFloat64 m name with None => true | Some _ => false end)
    msgs)).

End Ingest.

(** The errors a stage goroutine can have put on the error channel. *)
Module Shutdown.
Import Go Pipe.




End Shutdown.

(** Concrete inputs the theorems are evaluated at. *)
Module Examples.
Import Go Message Config Log Calc.

(** A renderer for the examples: strings as they are, anything else as
    Go prints a nil. *)
Definition show (v : value) : string :=
  match v with VString s => s | _ => "<nil>" end.

Definition cfg_x : FeatureConfig :=
  mkFeatureConfig "x" "numerical" (mkThresholds None None None None None).

Definition calc0 : Calculator :=
  NewCalculator 60 [cfg_x] (mkChan [] 100) [].

Definition th_x : Thresholds :=
  mkThresholds (Some 0.125%float) None (Some 8%float) None None.

Definition alerter0 : Alert.Alerter :=
  Alert.NewAlerter [mkFeatureConfig "x" "numerical" th_x] [].

(** count 20, nullCount 5, mean 10, variance 4 *)
Definition result_x : AggregationResult :=
  mkResult "x" 0 60 20 5 10%float 4%float.

(** a window in which every message was null *)
Definition result_nulls : AggregationResult :=
  mkResult "x" 0 60 3 3 NaN NaN.

(** Two messages in the window ending at 60 and one in the window ending
    at 120, for a window length of 60. *)
Definition calc2 : Calculator :=
  let ingest c (p : gmap string value * Z) := processMessage show c p.1 p.2 in
  fold_left ingest
    [ ({[ "x" := VFloat64 10%float ]}, 30);
      ({[ "x" := VNil ]}, 45);
      ({[ "x" := VFloat64 7%float ]}, 70) ] calc0.

(** The same windows in front of a channel without a free slot. *)
Definition calc2_full : Calculator :=
  setOutput calc2 (mkChan [result_x] 1).

End Examples.

(** The violations a result is expected to raise, written with the words
    of the threshold rules: the metric is computable, the bound is
    configured, and the comparison holds. *)
Module Expect.
Import Go Config Calc Alert.

Definition above (bound : option float) (x : float) : bool :=
  match bound with Some t => (t <? x)%float | None => false end.

Definition below (bound : option float) (x : float) : bool :=
  match bound with Some t => (x <? t)%float | None => false end.

Definition nullRateComputable (r : AggregationResult) : bool := 0 <? Count r.

Definition meanComputable (r : AggregationResult) : bool :=
  negb (IsNaN (Mean r)).

Definition stdDevComputable (r : AggregationResult) : bool :=
  negb (IsNaN (Variance r)) && (0 <=? Variance r)%float.

Definition nullRateHigh (r : AggregationResult) (th : Thresholds) : bool :=
  nullRateComputable r &&
  above (NullRate th)
    (float64_of_int (NullCount r) / float64_of_int (Count r))%float.

Definition meanLow (r : AggregationResult) (th : Thresholds) : bool :=
  meanComputable r && below (MeanMin th) (Mean r).

Definition meanHigh (r : AggregationResult) (th : Thresholds) : bool :=
  meanComputable r && above (MeanMax th) (Mean r).

Definition stdDevLow (r : AggregationResult) (th : Thresholds) : bool :=
  stdDevComputable r && below (StdDevMin th) (Sqrt (Variance r)).

Definition stdDevHigh (r : AggregationResult) (th : Thresholds) : bool :=
  stdDevComputable r && above (StdDevMax th) (Sqrt (Variance r)).

(** The five gauge vectors of the collectors. *)
Definition gauges (m : Metrics) :=
  (featureCount m, featureNullCount m, featureNullRate m, featureMean m,
   featureStdDev m).

(** The value a gauge shows for a metric: the metric, or 0 for NaN. *)
Definition shown (v : float) : float := if IsNaN v then 0%float else v.

Definition hit (b : bool) : nat := if b then 1%nat else 0%nat.

(** How many times the counter labelled [k] is expected to advance. *)
Definition expected (r : AggregationResult) (th : Thresholds)
    (k : string * string * string) : nat :=
  (if decide (k = (FeatureName r, "null_rate", ">"))
   then hit (nullRateHigh r th) else 0) +
  (if decide (k = (FeatureName r, "mean", "<"))
   then hit (meanLow r th) else 0) +
  (if decide (k = (FeatureName r, "mean", ">"))
   then hit (meanHigh r th) else 0) +
  (if decide (k = (FeatureName r, "stddev", "<"))
   then hit (stdDevLow r th) else 0) +
  (if decide (k = (FeatureName r, "stddev", ">"))
   then hit (stdDevHigh r th) else 0).

End Expect.

(** What a flush hands to the output channel, and what the log tells
    about the results that did not fit. *)
Module Emit.
Import Go Message Config Log Calc.

(** The result the flush loop builds for the accumulator [s] of feature
    [f] in the window [ws] that ends at [w]. *)
Definition resultOf (w : Z) (ws : windowInfo) (f : string) (s : FeatureStats)
    : AggregationResult :=
  let mv := (calculateMeanVariance s f (windowStart ws)).1 in
  mkResult f (windowStart ws) w (count s) (nullCount s) mv.1 mv.2.

(** The pair a result stands for. *)
Definition key (r : AggregationResult) : string * Z :=
  (FeatureName r, WindowEnd r).

(** The windows a flush at [cutoff] completes, and the ones it keeps. *)
Definition completed (cutoff : Z) (m : gmap Z windowInfo) : gmap Z windowInfo :=
  filter (λ kv, kv.1 <= cutoff) m.

Definition retained (cutoff : Z) (m : gmap Z windowInfo) : gmap Z windowInfo :=
  filter (λ kv, cutoff < kv.1) m.

Section Order.
Variable rangeW : gmap Z windowInfo -> list (Z * windowInfo).
Variable rangeF : gmap string FeatureStats -> list (string * FeatureStats).

(** The results of one window, in the order its features are ranged
    over: one for every accumulator whose count is not 0. *)
Definition windowResults (w : Z) (ws : windowInfo)
    : list AggregationResult :=
  omap (λ kv : string * FeatureStats,
          if count kv.2 =? 0 then None
          else Some (resultOf w ws kv.1 kv.2))
       (rangeF (features ws)).

(** The results of a flush, in the order they are offered to the
    channel. *)
Definition emitted (c : Calculator) (cutoff : Z) : list AggregationResult :=
  rangeW (completed cutoff (windowStates c)) ≫=
    (λ kv : Z * windowInfo, windowResults kv.1 kv.2).
End Order.

(** The pairs the log reports as dropped. *)
Definition dropText : string :=
  "Calculator output channel full, dropping result".

Definition droppedKey (e : entry) : option (string * Z) :=
  if String.eqb (text e) dropText then
    match fields e with
    | [FString _ f; FTime _ w] => Some (f, w)
    | _ => None
    end
  else None.

Definition dropped (lg : list entry) : list (string * Z) :=
  omap droppedKey lg.

(** The free slots of a channel. *)
Definition room {A} (ch : chan A) : nat := (cap ch - length (buf ch))%nat.

(** What an observer of a calculator sees of a flush: the channel and the
    pairs reported as dropped. *)
Definition offer (st : chan AggregationResult * list (string * Z))
    (r : AggregationResult) : chan AggregationResult * list (string * Z) :=
  if (length (buf st.1) <? cap st.1)%nat
  then (mkChan (buf st.1 ++ [r]) (cap st.1), st.2)
  else (st.1, st.2 ++ [key r]).

Definition seen (c : Calculator) : chan AggregationResult * list (string * Z) :=
  (output c, dropped (logger c)).



(** [c'] is [c] after an ingest into the window ending at [w]: same
    configuration, nothing offered to the channel, and no window other
    than [w] created. *)
Definition ingested (w : Z) (c c' : Calculator) : Prop :=
  WindowSize c' = WindowSize c /\
  featuresToRun c' = featuresToRun c /\
  seen c' = seen c /\
  forall w', is_Some (windowStates c' !! w') ->
             w' = w \/ is_Some (windowStates c !! w').


End Emit.

(** Vocabulary of the further properties of the calculator. *)
Module Windows.
Import Go Message Config Log Calc.

(** Every live window sits under its own end and spans one window
    length. *)
Definition wellFormed (c : Calculator) : Prop :=
  forall w ws, windowStates c !! w = Some ws ->
    windowEnd ws = w /\ windowStart ws = w - WindowSize c.

(** A result that covers one window length. *)
Definition spansWindow (size : Z) (r : AggregationResult) : Prop :=
  WindowStart r = WindowEnd r - size.

(** The output buffer holds no more than its capacity. *)
Definition withinCapacity (c : Calculator) : Prop :=
  (length (buf (output c)) <= cap (output c))%nat.

End Windows.

(** Vocabulary of the further properties of the evaluator. *)
Module Evaluate.
Import Go Config Log Calc Alert Expect.

(** The number of violations a result raises against its thresholds. *)
Definition totalHits (r : AggregationResult) (th : Thresholds) : nat :=
  (hit (nullRateHigh r th) + hit (meanLow r th) + hit (meanHigh r th) +
   hit (stdDevLow r th) + hit (stdDevHigh r th))%nat.

(** The last configuration of a list that carries the name [n]. *)
Fixpoint lastNamed (n : string) (feats : list FeatureConfig)
    : option FeatureConfig :=
  match feats with
  | [] => None
  | f :: rest =>
      match lastNamed n rest with
      | Some g => Some g
      | None => if String.eqb (Name f) n then Some f else None
      end
  end.

(** [lg'] is [lg] followed by [n] warnings. *)
Definition warns (n : nat) (lg lg' : list entry) : Prop :=
  exists ws, lg' = lg ++ ws /\ length ws = n /\
             Forall (λ e, lvl e = WarnLevel) ws.

(** The gauges of one feature. *)
Definition gaugesOf (m : Metrics) (n : string) :=
  (featureCount m !! n, featureNullCount m !! n, featureNullRate m !! n,
   featureMean m !! n, featureStdDev m !! n).

End Evaluate.

(** Vocabulary of the properties of the stages around the calculator. *)
Module Stages.
Import Go Message Settings.

(** A configuration whose four validated settings are in order. *)
Definition valid (cfg : Settings) : Prop :=
  Brokers (Kafka cfg) <> [] /\ Topic (Kafka cfg) <> "" /\
  GroupID (Kafka cfg) <> "" /\ 0 < WindowSize (Pipeline cfg).

(** The payloads of the fetches before the first one that fails or is
    interrupted. *)
Fixpoint delivered (evs : list Consumer.fetch) : list string :=
  match evs with
  | Consumer.Fetched value None :: rest => value :: delivered rest
  | _ => []
  end.

(** A fetch loop that comes to an end. *)
Fixpoint ends (evs : list Consumer.fetch) : bool :=
  match evs with
  | [] => false
  | Consumer.Fetched _ None :: rest => ends rest
  | _ => true
  end.

(** The payloads that decode, decoded, in order. *)
Definition decoded (json_Unmarshal : string -> error + gmap string value)
    (raws : list string) : list (gmap string value) :=
  omap (λ d, match json_Unmarshal d with inr m => Some m | inl _ => None end)
       raws.

(** The warnings of a log. *)
Definition warnings (lg : list Log.entry) : list Log.entry :=
  List.filter (λ e, match Log.lvl e with Log.WarnLevel => true | _ => false end)
              lg.

(** A settings object and a fetch sequence for the examples. *)
Definition kafka_ok : KafkaConfig :=
  mkKafkaConfig ["localhost:9092"] "feature-stream" "featurelens-dev-group".

Definition log_console : LogConfig :=
  mkLogConfig "info" "console" false "log" "app.log" 100 3 7 false.

Definition settings_ok : Settings :=
  mkSettings kafka_ok (mkPipelineConfig 60000000000) [Examples.cfg_x]
             log_console.

Definition consumer0 : Consumer.Consumer := Consumer.mkConsumer kafka_ok [] [].

End Stages.

(** Vocabulary of the properties of the accessors and of the logger. *)
Module Outputs.
Import Logging.

(** The cores of a logger that write a record of level [lvl]. *)
Definition writers (lg : Logger) (lvl : Z) : list core :=
  List.filter (λ c, Enabled c lvl) (cores lg).

(** The layouts GetTime tries, each once. *)
Definition layouts : list string :=
  [Timestamps.RFC3339Nano; Timestamps.RFC3339; "2006-01-02 15:04:05"].

(** A lower-casing and a level parser for the examples. *)
Definition levelOf (s : string) : option Z :=
  if String.eqb s "debug" then Some DebugLevel
  else if String.eqb s "info" then Some InfoLevel
  else if String.eqb s "warn" then Some WarnLevel
  else if String.eqb s "error" then Some ErrorLevel
  else None.

End Outputs.

(* ===================================================================== *)
(** * Properties *)
(* ===================================================================== *)

(** ** Machine integers *)

Module GoFacts.
Import Go.

Lemma wrap64_id z : in_int64 z -> wrap64 z = z.
Proof.
  unfold in_int64, int64_min, int64_max, wrap64. intros Hz.
  rewrite Z.mod_small; lia.
Qed.

Lemma wrap64_add_l a b : wrap64 (wrap64 a + b) = wrap64 (a + b).
Proof.
  unfold wrap64.
  replace ((a + 2 ^ 63) mod 2 ^ 64 - 2 ^ 63 + b + 2 ^ 63)
    with ((a + 2 ^ 63) mod 2 ^ 64 + b) by lia.
  replace (a + b + 2 ^ 63) with ((a + 2 ^ 63) + b) by lia.
  rewrite Zplus_mod_idemp_l. reflexivity.
Qed.


End GoFacts.

(** ** The record model *)

Module MessageFacts.
Import Message.

Lemma substring_prefix (n : nat) (s : string) :
  (n <= String.length s)%nat ->
  String.length (String.substring 0 n s) = n /\
  exists rest, s = String.substring 0 n s +:+ rest.
Proof.
  revert s. induction n as [|n IH]; intros s Hn.
  - destruct s; simpl; split; eauto.
  - destruct s as [|a s]; simpl in *; [lia|].
    destruct (IH s) as [Hlen [rest Hrest]]; [lia|].
    split; [by rewrite Hlen|].
    exists rest.
    change (String a s = String a (String.substring 0 n s +:+ rest)).
    by f_equal.
Qed.

(** C9. [GetFieldSnippet] returns ["<missing>"] for an absent field; for a
    present field it returns ["..."] when [maxLength <= 0]; otherwise, when
    the rendering is longer than [maxLength], the first [maxLength] bytes
    of the rendering followed by ["..."]; otherwise the whole rendering. *)
Theorem GetFieldSnippet_cases (Sprintf_v : value -> string)
    (dm : gmap string value) (fieldName : string) (maxLength : Z) :
  (dm !! fieldName = None ->
     GetFieldSnippet Sprintf_v dm fieldName maxLength = "<missing>") /\
  (forall v, dm !! fieldName = Some v ->
     let strValue := Sprintf_v v in
     (maxLength <= 0 ->
        GetFieldSnippet Sprintf_v dm fieldName maxLength = "...") /\
     (0 < maxLength -> maxLength < Z.of_nat (String.length strValue) ->
        exists head rest,
          strValue = head +:+ rest /\
          Z.of_nat (String.length head) = maxLength /\
          GetFieldSnippet Sprintf_v dm fieldName maxLength = head +:+ "...") /\
     (0 < maxLength -> Z.of_nat (String.length strValue) <= maxLength ->
        GetFieldSnippet Sprintf_v dm fieldName maxLength = strValue)).
Proof.
  unfold GetFieldSnippet. split.
  - intros ->. reflexivity.
  - intros v ->. cbv zeta. repeat split.
    + intros H. destruct (Z.leb_spec maxLength 0); [reflexivity|lia].
    + intros Hpos Hlt.
      destruct (Z.leb_spec maxLength 0); [lia|].
      destruct (Z.ltb_spec maxLength (Z.of_nat (String.length (Sprintf_v v))));
        [|lia].
      destruct (substring_prefix (Z.to_nat maxLength) (Sprintf_v v))
        as [Hlen [rest Hrest]]; [lia|].
      exists (slice_to (Sprintf_v v) maxLength), rest.
      unfold slice_to. repeat split; [exact Hrest|lia].
    + intros Hpos Hle.
      destruct (Z.leb_spec maxLength 0); [lia|].
      destruct (Z.ltb_spec maxLength (Z.of_nat (String.length (Sprintf_v v))));
        [lia|reflexivity].
Qed.

(** The theorem at a record with a long string, a null and a missing key. *)
Lemma GetFieldSnippet_cases_witness :
  let dm : gmap string value := {[ "a" := VString "abcdefgh"; "n" := VNil ]} in
  let show v := match v with VString s => s | _ => "<nil>" end in
  GetFieldSnippet show dm "zz" 3 = "<missing>" /\
  GetFieldSnippet show dm "a" 0 = "..." /\
  GetFieldSnippet show dm "a" 3 = "abc..." /\
  GetFieldSnippet show dm "a" 8 = "abcdefgh" /\
  GetFieldSnippet show dm "n" 50 = "<nil>".
Proof.
  intros dm show.
  pose proof (GetFieldSnippet_cases show dm "zz" 3) as [H1 _].
  pose proof (GetFieldSnippet_cases show dm "a" 0) as [_ H2].
  split; [apply H1; reflexivity|].
  split; [apply (H2 (VString "abcdefgh")); [reflexivity|lia]|].
  vm_compute. auto.
Defined.

End MessageFacts.

(** ** Ingest: the accumulator of one (window, feature) pair *)

Module IngestFacts.
Import Go GoFacts Message Config Log Calc Ingest Examples.

Lemma statsAt_log c e w f : statsAt (log c e) w f = statsAt c w f.
Proof. reflexivity. Qed.

Lemma statsAt_store_eq c w f s :
  is_Some (windowStates c !! w) -> statsAt (storeStats c w f s) w f = Some s.
Proof.
  intros [wi Hwi]. unfold statsAt, storeStats. simpl.
  rewrite lookup_alter_eq, Hwi. simpl. by rewrite lookup_insert_eq.
Qed.

Lemma statsAt_store_ne c w f s w' f' :
  (w', f') <> (w, f) ->
  statsAt (storeStats c w f s) w' f' = statsAt c w' f'.
Proof.
  intros Hne. unfold statsAt, storeStats. simpl.
  destruct (decide (w' = w)) as [->|Hw].
  - rewrite lookup_alter_eq. destruct (windowStates c !! w) as [wi|]; simpl; [|done].
    rewrite lookup_insert_ne; [done|congruence].
  - by rewrite lookup_alter_ne.
Qed.

Lemma store_is_Some c w f s :
  is_Some (windowStates c !! w) ->
  is_Some (windowStates (storeStats c w f s) !! w).
Proof.
  intros [wi Hwi]. unfold storeStats, setWindows; simpl.
  rewrite lookup_alter_eq, Hwi. simpl. eauto.
Qed.

Lemma getOrCreate_spec c w f :
  let '(c1, s) := getOrCreateFeatureStats c w f in
  s = default zeroStats (statsAt c w f) /\
  statsAt c1 w f = Some s /\
  is_Some (windowStates c1 !! w) /\
  (forall w' f', (w', f') <> (w, f) -> statsAt c1 w' f' = statsAt c w' f').
Proof.
  unfold getOrCreateFeatureStats.
  destruct (windowStates c !! w) as [wi|] eqn:Hw.
  - destruct (features wi !! f) as [s|] eqn:Hf.
    + unfold statsAt. rewrite Hw. simpl. rewrite Hf. eauto.
    + split; [unfold statsAt; rewrite Hw; simpl; by rewrite Hf|].
      split; [apply statsAt_store_eq; eauto|].
      split; [apply store_is_Some; eauto|].
      intros. by apply statsAt_store_ne.
  - simpl. rewrite lookup_empty.
    set (c0 := log _ _).
    assert (Hc0 : windowStates c0 !! w = Some (newWindowInfo (w - WindowSize c) w)).
    { subst c0. simpl. by rewrite lookup_insert_eq. }
    split; [unfold statsAt; by rewrite Hw|].
    split; [apply statsAt_store_eq; eauto|].
    split; [apply store_is_Some; eauto|].
    intros w' f' Hne. rewrite statsAt_store_ne by done.
    subst c0. unfold statsAt. simpl.
    destruct (decide (w' = w)) as [->|Hne'].
    + rewrite lookup_insert_eq, Hw. simpl. apply lookup_empty.
    + by rewrite lookup_insert_ne.
Qed.

Section Update.
Variable Sprintf_v : value -> string.

Lemma statsAt_update c msg cfg w :
  statsAt (updateFeatureStats Sprintf_v c msg cfg w) w (Name cfg) =
    Some (bump msg cfg (default zeroStats (statsAt c w (Name cfg)))).
Proof.
  unfold updateFeatureStats, bump.
  pose proof (getOrCreate_spec c w (Name cfg)) as Hg.
  destruct (getOrCreateFeatureStats c w (Name cfg)) as [c1 s].
  destruct Hg as (Hs & _ & Hw & _). rewrite <- Hs.
  destruct (HasNonNull msg (Name cfg)); simpl.
  - unfold processNonNullValue, processNumericalValue.
    destruct (String.eqb (MetricType cfg) "numerical").
    + destruct (GetFloat64 msg (Name cfg)); simpl;
        rewrite ?statsAt_log; by apply statsAt_store_eq.
    + simpl. rewrite statsAt_log. by apply statsAt_store_eq.
  - by apply statsAt_store_eq.
Qed.

Lemma statsAt_ingestAll c cfg w msgs :
  msgs <> [] ->
  statsAt (ingestAll Sprintf_v c cfg w msgs) w (Name cfg) =
    Some (fold_left (λ s msg, bump msg cfg s) msgs
            (default zeroStats (statsAt c w (Name cfg)))).
Proof.
  revert c. induction msgs as [|m msgs IH]; intros c Hne; [done|].
  simpl. destruct msgs as [|m' msgs].
  - simpl. apply statsAt_update.
  - rewrite IH by done. by rewrite statsAt_update.
Qed.
End Update.

Lemma GetFloat64_HasNonNull msg name v :
  GetFloat64 msg name = Some v -> HasNonNull msg name = true.
Proof.
  unfold GetFloat64, HasNonNull.
  destruct (msg !! name) as [[]|]; simpl; congruence.
Qed.

Lemma nulls_cons name m msgs :
  nulls name (m :: msgs) =
    (if HasNonNull m name then 0 else 1) + nulls name msgs.
Proof.
  unfold nulls. simpl. destruct (HasNonNull m name); simpl; lia.
Qed.

Lemma nulls_bounds name msgs : 0 <= nulls name msgs <= Z.of_nat (length msgs).
Proof.
  induction msgs as [|m msgs IH]; [unfold nulls; simpl; lia|].
  rewrite nulls_cons. simpl length. destruct (HasNonNull m name); lia.
Qed.

Lemma bump_count msg cfg s : count (bump msg cfg s) = wrap64 (count s + 1).
Proof.
  unfold bump.
  destruct (HasNonNull msg (Name cfg)), (String.eqb (MetricType cfg) "numerical");
    try destruct (GetFloat64 msg (Name cfg)); reflexivity.
Qed.

Lemma bump_nullCount msg cfg s :
  nullCount (bump msg cfg s) =
    if HasNonNull msg (Name cfg) then nullCount s
    else wrap64 (nullCount s + 1).
Proof.
  unfold bump.
  destruct (HasNonNull msg (Name cfg)), (String.eqb (MetricType cfg) "numerical");
    try destruct (GetFloat64 msg (Name cfg)); reflexivity.
Qed.

(** Counters after a run of updates: both equal the wrapped number of
    events they count, provided the starting values are int64 values. *)
Lemma bump_all_counts cfg msgs s :
  in_int64 (count s) -> in_int64 (nullCount s) ->
  let s' := fold_left (λ s msg, bump msg cfg s) msgs s in
  count s' = wrap64 (count s + Z.of_nat (length msgs)) /\
  nullCount s' = wrap64 (nullCount s + nulls (Name cfg) msgs).
Proof.
  intros Hc Hn. cbv zeta.
  assert (Hgen : forall a b,
    count s = wrap64 a -> nullCount s = wrap64 b ->
    count (fold_left (λ s msg, bump msg cfg s) msgs s)
      = wrap64 (a + Z.of_nat (length msgs)) /\
    nullCount (fold_left (λ s msg, bump msg cfg s) msgs s)
      = wrap64 (b + nulls (Name cfg) msgs)).
  { clear Hc Hn. revert s. induction msgs as [|m msgs IH]; intros s a b Ha Hb.
    - unfold nulls. simpl. rewrite !Z.add_0_r. auto.
    - simpl fold_left. rewrite nulls_cons.
      destruct (HasNonNull m (Name cfg)) eqn:Hm.
      + destruct (IH (bump m cfg s) (a + 1) b) as [H1 H2].
        * rewrite bump_count, Ha. apply wrap64_add_l.
        * rewrite bump_nullCount, Hm. exact Hb.
        * rewrite H1, H2. simpl length. split; f_equal; lia.
      + destruct (IH (bump m cfg s) (a + 1) (b + 1)) as [H1 H2].
        * rewrite bump_count, Ha. apply wrap64_add_l.
        * rewrite bump_nullCount, Hm, Hb. apply wrap64_add_l.
        * rewrite H1, H2. simpl length. split; f_equal; lia. }
  apply Hgen; symmetry; by apply wrap64_id.
Qed.

(** The two sums after a run of updates of a numerical feature. *)
Lemma bump_all_sums cfg msgs s :
  MetricType cfg = "numerical" ->
  let s' := fold_left (λ s msg, bump msg cfg s) msgs s in
  sum s' = fold_left PrimFloat.add (numbers (Name cfg) msgs) (sum s) /\
  sumSq s' = fold_left (λ a v, a + v * v)%float (numbers (Name cfg) msgs)
               (sumSq s).
Proof.
  intros Hnum. cbv zeta. revert s.
  induction msgs as [|m msgs IH]; intros s; [split; reflexivity|].
  simpl fold_left. unfold numbers in *. simpl omap.
  destruct (IH (bump m cfg s)) as [H1 H2]. rewrite H1, H2. clear IH H1 H2.
  unfold bump. rewrite Hnum. simpl String.eqb.
  destruct (GetFloat64 m (Name cfg)) as [v|] eqn:Hv.
  - rewrite (GetFloat64_HasNonNull _ _ _ Hv). simpl. auto.
  - destruct (HasNonNull m (Name cfg)); simpl; auto.
Qed.

(** C1 (as amended). After a non-empty run of ingests into the accumulator
    of a numerical feature, [count] is the number of messages, [nullCount]
    the number of messages whose field is null or absent (both as int64),
    and [sum] and [sumSq] are the running sums, in arrival order, over the
    values that converted to a number. *)
Theorem ingest_accumulates (Sprintf_v : value -> string) (c : Calculator)
    (cfg : FeatureConfig) (w : Z) (msgs : list (gmap string value)) :
  MetricType cfg = "numerical" ->
  statsAt c w (Name cfg) = None ->
  msgs <> [] ->
  exists s,
    statsAt (ingestAll Sprintf_v c cfg w msgs) w (Name cfg) = Some s /\
    count s = wrap64 (Z.of_nat (length msgs)) /\
    nullCount s = wrap64 (nulls (Name cfg) msgs) /\
    sum s = fold_left PrimFloat.add (numbers (Name cfg) msgs) 0%float /\
    sumSq s = fold_left (λ a v, a + v * v)%float (numbers (Name cfg) msgs)
                0%float.
Proof.
  intros Hnum Hnew Hne.
  eexists. split; [by apply statsAt_ingestAll|].
  rewrite Hnew. change (default zeroStats None) with zeroStats.
  destruct (bump_all_counts cfg msgs zeroStats) as [Hc Hn];
    [by vm_compute|by vm_compute|].
  destruct (bump_all_sums cfg msgs zeroStats Hnum) as [Hs Hq].
  rewrite Hc, Hn, Hs, Hq. auto.
Qed.

Lemma ingest_accumulates_witness :
  exists s,
    statsAt (ingestAll show calc0 cfg_x 60
               [ {[ "x" := VFloat64 10%float ]}; {[ "x" := VNil ]};
                 {[ "x" := VInt 12 ]}; ∅ ]) 60 "x" = Some s /\
    count s = 4 /\ nullCount s = 2 /\ sum s = 22%float /\ sumSq s = 244%float.
Proof.
  destruct (ingest_accumulates show calc0 cfg_x 60
              [ {[ "x" := VFloat64 10%float ]}; {[ "x" := VNil ]};
                {[ "x" := VInt 12 ]}; ∅ ])
    as (s & Hs & Hc & Hn & Hsum & Hsq);
    [reflexivity | reflexivity | discriminate |].
  exists s. split; [exact Hs|].
  rewrite Hc, Hn, Hsum, Hsq. vm_compute. auto.
Defined.

(** C1 (as stated) fails: a message whose field holds a string is counted
    in [count] but not in [nullCount], although no number can be had from
    it. *)
Lemma nullCount_misses_unconvertible :
  let msgs : list (gmap string value) := [ {[ "x" := VString "abc" ]} ] in
  exists s,
    statsAt (ingestAll show calc0 cfg_x 60 msgs) 60 "x" = Some s /\
    count s = 1 /\ nullCount s = 0 /\
    withoutNumber "x" msgs = 1 /\
    nullCount s <> withoutNumber "x" msgs.
Proof.
  intros msgs. eexists. split; [vm_compute; reflexivity|].
  vm_compute. repeat split; congruence.
Qed.

(** C8. Starting from a pair that has no accumulator yet, after any run of
    fewer than 2^63 ingests the accumulator satisfies
    [0 <= nullCount <= count]; and in a single ingest [count] always
    advances by one while [nullCount] stays or advances by one. *)
Theorem nullCount_le_count (Sprintf_v : value -> string) (c : Calculator)
    (cfg : FeatureConfig) (w : Z) (msgs : list (gmap string value))
    (s : FeatureStats) :
  statsAt c w (Name cfg) = None ->
  Z.of_nat (length msgs) <= int64_max ->
  statsAt (ingestAll Sprintf_v c cfg w msgs) w (Name cfg) = Some s ->
  0 <= nullCount s <= count s /\
  (forall msg, exists s',
     statsAt (updateFeatureStats Sprintf_v
                (ingestAll Sprintf_v c cfg w msgs) msg cfg w) w (Name cfg)
       = Some s' /\
     count s' = wrap64 (count s + 1) /\
     (nullCount s' = nullCount s \/
      nullCount s' = wrap64 (nullCount s + 1))).
Proof.
  intros Hnew Hlen Hs. split.
  - destruct msgs as [|m msgs]; [simpl in Hs; congruence|].
    rewrite statsAt_ingestAll, Hnew in Hs by done.
    change (default zeroStats None) with zeroStats in Hs.
    injection Hs as <-.
    destruct (bump_all_counts cfg (m :: msgs) zeroStats) as [Hc Hn];
      [by vm_compute|by vm_compute|].
    simpl fold_left in Hc, Hn. rewrite Hc, Hn.
    change (count zeroStats) with 0. change (nullCount zeroStats) with 0.
    pose proof (nulls_bounds (Name cfg) (m :: msgs)) as Hb.
    unfold int64_max in Hlen.
    rewrite !wrap64_id by (unfold in_int64, int64_min, int64_max; lia).
    lia.
  - intros msg. eexists. split; [apply statsAt_update|].
    rewrite Hs. simpl default. rewrite bump_count, bump_nullCount.
    split; [reflexivity|]. destruct (HasNonNull msg (Name cfg)); auto.
Qed.

Lemma nullCount_le_count_witness :
  exists s,
    statsAt (ingestAll show calc0 cfg_x 60
               [ {[ "x" := VNil ]}; {[ "x" := VString "abc" ]} ]) 60 "x"
      = Some s /\
    0 <= nullCount s <= count s.
Proof.
  eexists. split; [vm_compute; reflexivity|].
  eapply (nullCount_le_count show calc0 cfg_x 60
            [ {[ "x" := VNil ]}; {[ "x" := VString "abc" ]} ]);
    [reflexivity | vm_compute; discriminate | vm_compute; reflexivity].
Defined.

End IngestFacts.

(** ** binary64 *)

Module FloatFacts.

Lemma is_nan_Prim2SF x : PrimFloat.is_nan x = true -> Prim2SF x = S754_nan.
Proof. intros H. unfold Prim2SF. by rewrite H. Qed.

Lemma SFcompare_refl f : f <> S754_nan -> SFcompare f f = Some Eq.
Proof.
  destruct f as [s| s | | s m e]; simpl; try done.
  - by destruct s.
  - intros _. rewrite Z.compare_refl.
    change (Pos.compare_cont Eq m m) with (Pos.compare m m).
    rewrite Pos.compare_refl. by destruct s.
Qed.

Lemma not_nan_Prim2SF x : Prim2SF x <> S754_nan -> PrimFloat.is_nan x = false.
Proof.
  intros H. unfold PrimFloat.is_nan. rewrite FloatAxioms.eqb_spec. unfold SFeqb.
  by rewrite SFcompare_refl.
Qed.

(** A comparison that holds has no NaN operand. *)
Lemma ltb_true_not_nan x y :
  (x <? y)%float = true ->
  PrimFloat.is_nan x = false /\ PrimFloat.is_nan y = false.
Proof.
  rewrite FloatAxioms.ltb_spec. unfold SFltb. intros H.
  split; apply not_nan_Prim2SF; intros E.
  - destruct (Prim2SF x); try discriminate E. simpl in H. discriminate H.
  - destruct (Prim2SF y); try discriminate E.
    destruct (Prim2SF x); simpl in H; discriminate H.
Qed.

Lemma ltb_nan_l x y : PrimFloat.is_nan x = true -> (x <? y)%float = false.
Proof.
  intros H. destruct (x <? y)%float eqn:E; [|done].
  apply ltb_true_not_nan in E as [E _]. congruence.
Qed.

Lemma ltb_nan_r x y : PrimFloat.is_nan y = true -> (x <? y)%float = false.
Proof.
  intros H. destruct (x <? y)%float eqn:E; [|done].
  apply ltb_true_not_nan in E as [_ E]. congruence.
Qed.

End FloatFacts.

(** ** Mean and variance at flush time *)

Module MeanVarianceFacts.
Import Go GoFacts Config Log Calc.

(** C2. For an accumulator whose [count - nullCount] is an int64 value:
    when that difference is not positive, mean and variance are both NaN;
    otherwise the mean is [sum / validCount] and the variance is
    [sumSq / validCount - mean * mean] when that is not negative and 0 when
    it is negative, on either side of [-1e-9]. *)
Theorem calculateMeanVariance_spec (stats : FeatureStats)
    (featureName : string) (wStart : Z) :
  in_int64 (count stats - nullCount stats) ->
  let validCount := count stats - nullCount stats in
  let mean := (calculateMeanVariance stats featureName wStart).1.1 in
  let variance := (calculateMeanVariance stats featureName wStart).1.2 in
  let raw := (sumSq stats / float64_of_int validCount - mean * mean)%float in
  (validCount <= 0 -> mean = NaN /\ variance = NaN) /\
  (0 < validCount ->
     mean = (sum stats / float64_of_int validCount)%float /\
     ((raw <? 0)%float = true -> (- tiny <? raw)%float = true ->
        variance = 0%float) /\
     ((raw <? 0)%float = true -> (- tiny <? raw)%float = false ->
        variance = 0%float) /\
     ((raw <? 0)%float = false -> variance = raw)).
Proof.
  intros Hr. cbv zeta. unfold calculateMeanVariance.
  rewrite (wrap64_id _ Hr).
  destruct (Z.leb_spec (count stats - nullCount stats) 0) as [Hle|Hgt].
  - split; [auto|lia].
  - split; [lia|]. intros _.
    set (mean := (sum stats / _)%float).
    set (raw := (_ - _)%float).
    destruct (raw <? 0)%float eqn:Hneg;
      [destruct (- tiny <? raw)%float eqn:Htiny|];
      simpl; repeat split; intros; subst raw mean; congruence.
Qed.

(** The values 10, 12, 8: mean 10 and variance 8/3 up to rounding. *)
Lemma calculateMeanVariance_spec_witness :
  let stats := mkStats 3 0 30%float 308%float in
  (calculateMeanVariance stats "x" 0).1.1 = 10%float /\
  (calculateMeanVariance (mkStats 2 2 0%float 0%float) "x" 0).1.2 = NaN.
Proof.
  pose proof (calculateMeanVariance_spec (mkStats 3 0 30%float 308%float) "x" 0)
    as H1.
  pose proof (calculateMeanVariance_spec (mkStats 2 2 0%float 0%float) "x" 0)
    as H2.
  cbv zeta in *. split.
  - destruct H1 as [_ H1]; [vm_compute; split; discriminate|].
    destruct H1 as [-> _]; [reflexivity|]. vm_compute. reflexivity.
  - destruct H2 as [H2 _]; [vm_compute; split; discriminate|].
    destruct H2 as [_ ->]; [vm_compute; discriminate|]. reflexivity.
Defined.

End MeanVarianceFacts.

(** ** Threshold evaluation *)

Module AlertFacts.
Import Go Config Log Calc Alert Expect FloatFacts Examples.

Lemma violations_Inc m k k' :
  violations (Inc m k) k' =
    (violations m k' + (if decide (k' = k) then 1 else 0))%nat.
Proof.
  unfold Inc, violations. simpl.
  case_decide as Hk.
  - subst k'. rewrite lookup_insert_eq. simpl. lia.
  - rewrite lookup_insert_ne by done. lia.
Qed.

Lemma violations_violation st text f w actual t check cmp k :
  violations (violation st text f w actual t check cmp).2 k =
    (violations st.2 k + (if decide (k = (f, check, cmp)) then 1 else 0))%nat.
Proof. unfold violation. simpl. apply violations_Inc. Qed.

(** The guard on NaN in front of a comparison changes nothing: a
    comparison with NaN does not hold. *)
Lemma guarded_above th x : negb (IsNaN x) && above th x = above th x.
Proof.
  destruct th as [t|]; simpl; [|by rewrite andb_false_r].
  destruct (t <? x)%float eqn:E; [|by rewrite andb_false_r].
  apply ltb_true_not_nan in E as [_ E]. unfold IsNaN. by rewrite E.
Qed.

Lemma guarded_below th x : negb (IsNaN x) && below th x = below th x.
Proof.
  destruct th as [t|]; simpl; [|by rewrite andb_false_r].
  destruct (x <? t)%float eqn:E; [|by rewrite andb_false_r].
  apply ltb_true_not_nan in E as [E _]. unfold IsNaN. by rewrite E.
Qed.

Ltac count_violations :=
  repeat match goal with
         | |- context [(?a <? ?b)%float] => destruct (a <? b)%float
         end;
  rewrite ?violations_violation; cbn [negb andb hit fst snd];
  rewrite ?violations_violation;
  repeat case_decide; simplify_eq; lia.

Lemma checkNullRate_violations st f w rate th k :
  violations (checkNullRate st f w rate th).2 k =
    (violations st.2 k +
     (if decide (k = (f, "null_rate", ">"))
      then hit (negb (IsNaN rate) && above th rate) else 0))%nat.
Proof.
  unfold checkNullRate, above.
  destruct th as [t|], (IsNaN rate); count_violations.
Qed.

Lemma checkMean_violations st f w x lo hi k :
  violations (checkMean st f w x lo hi).2 k =
    (violations st.2 k +
     (if decide (k = (f, "mean", "<"))
      then hit (negb (IsNaN x) && below lo x) else 0) +
     (if decide (k = (f, "mean", ">"))
      then hit (negb (IsNaN x) && above hi x) else 0))%nat.
Proof.
  unfold checkMean, above, below.
  destruct (IsNaN x), lo as [t|], hi as [u|]; count_violations.
Qed.

Lemma checkStdDev_violations st f w x lo hi k :
  violations (checkStdDev st f w x lo hi).2 k =
    (violations st.2 k +
     (if decide (k = (f, "stddev", "<"))
      then hit (negb (IsNaN x) && below lo x) else 0) +
     (if decide (k = (f, "stddev", ">"))
      then hit (negb (IsNaN x) && above hi x) else 0))%nat.
Proof.
  unfold checkStdDev, above, below.
  destruct (IsNaN x), lo as [t|], hi as [u|]; count_violations.
Qed.

Lemma gauges_checkNullRate st f w rate th :
  gauges (checkNullRate st f w rate th).2 = gauges st.2.
Proof.
  unfold checkNullRate. destruct th; [|done].
  destruct (IsNaN rate); [done|]. by destruct (_ <? _)%float.
Qed.

Lemma gauges_checkMean st f w x lo hi :
  gauges (checkMean st f w x lo hi).2 = gauges st.2.
Proof.
  unfold checkMean. destruct (IsNaN x); [done|].
  destruct lo, hi; simpl;
    repeat match goal with
           | |- context [(?a <? ?b)%float] => destruct (a <? b)%float
           end; reflexivity.
Qed.

Lemma gauges_checkStdDev st f w x lo hi :
  gauges (checkStdDev st f w x lo hi).2 = gauges st.2.
Proof.
  unfold checkStdDev. destruct (IsNaN x); [done|].
  destruct lo, hi; simpl;
    repeat match goal with
           | |- context [(?a <? ?b)%float] => destruct (a <? b)%float
           end; reflexivity.
Qed.

(** The derived metrics against the words of the rules. *)
Lemma nullRate_guard r th :
  negb (IsNaN (nullRateVal r)) && above (NullRate th) (nullRateVal r)
    = nullRateHigh r th.
Proof.
  rewrite guarded_above. unfold nullRateHigh, nullRateComputable, nullRateVal.
  destruct (0 <? Count r); simpl; [done|].
  destruct (NullRate th) as [t|]; simpl; [|done].
  by apply ltb_nan_r.
Qed.

Lemma stdDev_guard_below r lo :
  negb (IsNaN (stdDevVal r)) && below lo (stdDevVal r)
    = stdDevComputable r && below lo (Sqrt (Variance r)).
Proof.
  rewrite guarded_below. unfold stdDevComputable, stdDevVal.
  destruct (negb (IsNaN (Variance r)) && (0 <=? Variance r)%float);
    simpl; [done|].
  destruct lo as [t|]; simpl; [|done]. by apply ltb_nan_l.
Qed.

Lemma stdDev_guard_above r hi :
  negb (IsNaN (stdDevVal r)) && above hi (stdDevVal r)
    = stdDevComputable r && above hi (Sqrt (Variance r)).
Proof.
  rewrite guarded_above. unfold stdDevComputable, stdDevVal.
  destruct (negb (IsNaN (Variance r)) && (0 <=? Variance r)%float);
    simpl; [done|].
  destruct hi as [t|]; simpl; [|done]. by apply ltb_nan_r.
Qed.

(** C5. For a result of a configured feature, each of the five violation
    counters advances by one exactly when its metric is computable, its
    bound is configured and its comparison holds, each check on its own,
    and no other counter moves; the null rate is [nullCount / count] when
    [count > 0] and the standard deviation [sqrt variance] when the
    variance is a non-negative number.  For a feature that is not
    configured the collectors are left as they were. *)
Theorem processResult_violations (a : Alerter) (m : Metrics)
    (r : AggregationResult) :
  (forall cfg, features a !! FeatureName r = Some cfg ->
     forall k,
       violations (processResult a m r).2 k =
         (violations m k + expected r (Thresholds_of cfg) k)%nat) /\
  (features a !! FeatureName r = None -> (processResult a m r).2 = m) /\
  (0 < Count r ->
     nullRateVal r =
       (float64_of_int (NullCount r) / float64_of_int (Count r))%float) /\
  (Count r <= 0 -> nullRateVal r = NaN) /\
  (stdDevVal r = if stdDevComputable r then Sqrt (Variance r) else NaN).
Proof.
  split; [|split; [|split; [|split]]].
  - intros cfg Hcfg k. unfold processResult. rewrite Hcfg. cbv zeta.
    unfold logStats. cbn [fst snd].
    rewrite checkStdDev_violations, checkMean_violations,
      checkNullRate_violations.
    rewrite nullRate_guard, stdDev_guard_below, stdDev_guard_above.
    unfold expected, meanLow, meanHigh, stdDevLow, stdDevHigh, meanComputable.
    cbn [snd]. unfold violations at 1. cbn [featureThresholdViolations].
    fold (violations m k). lia.
  - intros Hnone. unfold processResult. by rewrite Hnone.
  - intros Hpos. unfold nullRateVal.
    destruct (Z.ltb_spec 0 (Count r)); [done|lia].
  - intros Hle. unfold nullRateVal.
    destruct (Z.ltb_spec 0 (Count r)); [lia|done].
  - reflexivity.
Qed.

(** count 20 with 5 nulls against a null-rate bound of 0.125, and mean 10
    against an upper bound of 8: one violation each, none elsewhere. *)
Lemma processResult_violations_witness :
  let m' := (processResult alerter0 noMetrics result_x).2 in
  violations m' ("x", "null_rate", ">") = 1%nat /\
  violations m' ("x", "mean", ">") = 1%nat /\
  violations m' ("x", "mean", "<") = 0%nat /\
  violations m' ("x", "stddev", ">") = 0%nat.
Proof.
  cbv zeta.
  pose proof (processResult_violations alerter0 noMetrics result_x)
    as [H _].
  specialize (H (mkFeatureConfig "x" "numerical" th_x)).
  rewrite !H by reflexivity. vm_compute. auto.
Defined.

(** C10. For a result of a configured feature all five gauges of that
    feature are written: count and null count as they are, and null rate,
    mean and standard deviation as their value, or as 0 when the value is
    NaN. *)
Theorem processResult_gauges (a : Alerter) (m : Metrics)
    (r : AggregationResult) (cfg : FeatureConfig) :
  features a !! FeatureName r = Some cfg ->
  let m' := (processResult a m r).2 in
  featureCount m' !! FeatureName r = Some (float64_of_int (Count r)) /\
  featureNullCount m' !! FeatureName r = Some (float64_of_int (NullCount r)) /\
  featureNullRate m' !! FeatureName r = Some (shown (nullRateVal r)) /\
  featureMean m' !! FeatureName r = Some (shown (Mean r)) /\
  featureStdDev m' !! FeatureName r = Some (shown (stdDevVal r)) /\
  (Count r <= 0 -> featureNullRate m' !! FeatureName r = Some 0%float) /\
  (stdDevComputable r = false ->
     featureStdDev m' !! FeatureName r = Some 0%float).
Proof.
  intros Hcfg. cbv zeta.
  assert (Hg : gauges (processResult a m r).2 =
    (<[FeatureName r := float64_of_int (Count r)]> (featureCount m),
     <[FeatureName r := float64_of_int (NullCount r)]> (featureNullCount m),
     setOrZero (featureNullRate m) (FeatureName r) (nullRateVal r),
     setOrZero (featureMean m) (FeatureName r) (Mean r),
     setOrZero (featureStdDev m) (FeatureName r) (stdDevVal r))).
  { unfold processResult. rewrite Hcfg. cbv zeta. unfold logStats.
    cbn [fst snd].
    by rewrite gauges_checkStdDev, gauges_checkMean, gauges_checkNullRate. }
  unfold gauges in Hg. injection Hg as -> -> -> -> ->.
  assert (Hset : forall g v,
    setOrZero g (FeatureName r) v !! FeatureName r = Some (shown v)).
  { intros g v. unfold setOrZero, shown.
    destruct (IsNaN v); simpl; by rewrite lookup_insert_eq. }
  rewrite !lookup_insert_eq, !Hset.
  repeat split.
  - intros Hle. unfold nullRateVal.
    destruct (Z.ltb_spec 0 (Count r)); [lia|reflexivity].
  - intros Hstd. unfold stdDevVal. fold (stdDevComputable r).
    by rewrite Hstd.
Qed.

(** A window of nulls only: mean and variance are NaN and the three
    derived gauges show 0. *)
Lemma processResult_gauges_witness :
  let m' := (processResult alerter0 noMetrics result_nulls).2 in
  featureCount m' !! "x" = Some 3%float /\
  featureNullRate m' !! "x" = Some 1%float /\
  featureMean m' !! "x" = Some 0%float /\
  featureStdDev m' !! "x" = Some 0%float.
Proof.
  cbv zeta.
  destruct (processResult_gauges alerter0 noMetrics result_nulls
              (mkFeatureConfig "x" "numerical" th_x))
    as (H1 & _ & H3 & H4 & H5 & _); [reflexivity|].
  change (FeatureName result_nulls) with "x" in *.
  rewrite H1, H3, H4, H5. vm_compute. auto.
Defined.

End AlertFacts.

(** ** Flush *)

Module FlushFacts.
Import Go GoFacts Message Config Log Calc Emit Examples.

Lemma dropped_app l l' : dropped (l ++ l') = dropped l ++ dropped l'.
Proof. unfold dropped. apply omap_app. Qed.

Lemma seen_log c e : droppedKey e = None -> seen (log c e) = seen c.
Proof.
  intros He. unfold seen, log. simpl. rewrite dropped_app. simpl.
  unfold dropped at 2. simpl. rewrite He. by rewrite app_nil_r.
Qed.

Lemma seen_logAll c lg :
  Forall (λ e, droppedKey e = None) lg -> seen (logAll c lg) = seen c.
Proof.
  unfold logAll. revert c.
  induction lg as [|e lg IH]; intros c Hlg; [done|].
  inversion Hlg; subst. simpl. rewrite IH by done. by apply seen_log.
Qed.

Lemma seen_sendResult c r : seen (sendResult c r) = offer (seen c) r.
Proof.
  unfold sendResult, trySend, offer, seen. simpl.
  destruct (length (buf (output c)) <? cap (output c))%nat; simpl.
  - rewrite dropped_app. simpl. by rewrite app_nil_r.
  - rewrite dropped_app. reflexivity.
Qed.

Lemma windows_log c e : windowStates (log c e) = windowStates c.
Proof. reflexivity. Qed.

Lemma windows_logAll c lg : windowStates (logAll c lg) = windowStates c.
Proof.
  unfold logAll. revert c. induction lg as [|e lg IH]; intros c; [done|].
  simpl. by rewrite IH.
Qed.

Lemma windows_sendResult c r : windowStates (sendResult c r) = windowStates c.
Proof.
  unfold sendResult. destruct (trySend (output c) r) as [out []]; reflexivity.
Qed.

Lemma calculateMeanVariance_log s f wStart :
  Forall (λ e, droppedKey e = None) (calculateMeanVariance s f wStart).2.
Proof.
  unfold calculateMeanVariance.
  destruct (_ <=? 0); [constructor|]. cbv zeta.
  destruct (_ && _); [constructor|].
  destruct (_ <? 0)%float; simpl; repeat constructor.
Qed.

(** The partition loop over any list of entries with distinct keys. *)
Lemma collect_fold (cutoff : Z) (l : list (Z * windowInfo)) :
  NoDup l.*1 ->
  forall tp live : gmap Z windowInfo,
  let r :=
    fold_left
      (λ (acc : gmap Z windowInfo * gmap Z windowInfo) (kv : Z * windowInfo),
         let '(toProcess, states) := acc in
         let '(wEnd, windowState) := kv in
         if negb (After wEnd cutoff)
         then (<[wEnd := windowState]> toProcess, delete wEnd states)
         else (toProcess, states))
      l (tp, live) in
  (forall k v, r.1 !! k = Some v <->
     ((k, v) ∈ l /\ k <= cutoff) \/
     (tp !! k = Some v /\ ~ (k ∈ l.*1 /\ k <= cutoff))) /\
  (forall k v, r.2 !! k = Some v <->
     live !! k = Some v /\ ~ (k ∈ l.*1 /\ k <= cutoff)).
Proof.
  induction l as [|[k0 v0] l IH]; intros Hnd tp live.
  - simpl. split; intros k v; rewrite ?elem_of_nil; tauto.
  - rewrite fmap_cons in Hnd. apply NoDup_cons in Hnd as [Hk0 Hnd].
    simpl fold_left. unfold After.
    destruct (Z.ltb_spec cutoff k0) as [Hlt|Hle]; simpl negb; cbv iota.
    + destruct (IH Hnd tp live) as [IH1 IH2]. cbv zeta. split; intros k v.
      * rewrite IH1, fmap_cons, !elem_of_cons. simpl.
        split; intros [[? ?]|[? ?]]; [left|right|left|right]; split;
          try done; try (intros [[?|?] ?]; simplify_eq; try lia; tauto).
        -- by right.
        -- destruct H as [H|H]; [simplify_eq; lia|done].
        -- intros [? ?]. apply H0. split; [by right|done].
      * rewrite IH2, fmap_cons, !elem_of_cons. simpl.
        split; intros [? ?]; split; try done.
        -- intros [[?|?] ?]; simplify_eq; try lia; tauto.
        -- intros [? ?]. apply H0. split; [by right|done].
    + destruct (IH Hnd (<[k0 := v0]> tp) (delete k0 live)) as [IH1 IH2].
      cbv zeta. split; intros k v.
      * rewrite IH1, fmap_cons, !elem_of_cons. simpl.
        destruct (decide (k = k0)) as [->|Hne].
        -- rewrite lookup_insert_eq.
           split.
           ++ intros [[Hin _]|[Hv _]].
              ** exfalso. apply Hk0. apply list_elem_of_fmap. by exists (k0, v).
              ** left. split; [left; congruence|done].
           ++ intros [[[Heq|Hin] _]|[_ Hn]].
              ** right. split; [congruence|]. intros [? _]. done.
              ** exfalso. apply Hk0. apply list_elem_of_fmap. by exists (k0, v).
              ** exfalso. apply Hn. split; [by left|done].
        -- rewrite lookup_insert_ne by done.
           split.
           ++ intros [[Hin ?]|[Hv Hn]]; [left; split; [by right|done]|].
              right. split; [done|]. intros [[?|?] ?]; [done|]. tauto.
           ++ intros [[[Heq|Hin] ?]|[Hv Hn]]; [congruence|by left|].
              right. split; [done|]. intros [? ?]. apply Hn. split; [by right|done].
      * rewrite IH2, fmap_cons, !elem_of_cons. simpl.
        destruct (decide (k = k0)) as [->|Hne].
        -- rewrite lookup_delete_eq. split; [intros [? _]; done|].
           intros [_ Hn]. exfalso. apply Hn. split; [by left|done].
        -- rewrite lookup_delete_ne by done.
           split; intros [Hv Hn]; split; try done.
           ++ intros [[?|?] ?]; [done|]. tauto.
           ++ intros [? ?]. apply Hn. split; [by right|done].
Qed.

Section Order.
Variable rangeW : gmap Z windowInfo -> list (Z * windowInfo).
Variable rangeF : gmap string FeatureStats -> list (string * FeatureStats).
Hypothesis rangeW_perm : forall m, rangeW m ≡ₚ map_to_list m.
Hypothesis rangeF_perm : forall m, rangeF m ≡ₚ map_to_list m.

Lemma elem_of_rangeW m k v : (k, v) ∈ rangeW m <-> m !! k = Some v.
Proof. rewrite rangeW_perm. apply elem_of_map_to_list. Qed.

Lemma NoDup_rangeW m : NoDup (rangeW m).*1.
Proof. rewrite rangeW_perm. apply NoDup_fst_map_to_list. Qed.

Lemma elem_of_rangeF m k v : (k, v) ∈ rangeF m <-> m !! k = Some v.
Proof. rewrite rangeF_perm. apply elem_of_map_to_list. Qed.

Lemma NoDup_rangeF m : NoDup (rangeF m).*1.
Proof. rewrite rangeF_perm. apply NoDup_fst_map_to_list. Qed.

(** The partition step: the completed windows go out, the others stay,
    and nothing else of the calculator changes. *)
Lemma collect_spec c cutoff :
  collectAndRemoveCompletedWindows rangeW c cutoff =
    (setWindows c (retained cutoff (windowStates c)),
     completed cutoff (windowStates c)).
Proof.
  unfold collectAndRemoveCompletedWindows.
  pose proof (collect_fold cutoff (rangeW (windowStates c))
                (NoDup_rangeW _) ∅ (windowStates c)) as H.
  cbv zeta in H. destruct (fold_left _ _ _) as [tp live].
  destruct H as [H1 H2]. simpl in H1, H2.
  assert (Hin : forall k, k ∈ (rangeW (windowStates c)).*1 <->
                          is_Some (windowStates c !! k)).
  { intros k. rewrite list_elem_of_fmap. split.
    - intros [[k' v] [-> Hkv]]. apply elem_of_rangeW in Hkv. eauto.
    - intros [v Hv]. exists (k, v). split; [done|]. by apply elem_of_rangeW. }
  f_equal; [f_equal|]; apply map_eq; intros k; apply option_eq; intros v.
  - rewrite H2. unfold retained. rewrite map_lookup_filter_Some. simpl.
    rewrite Hin. split; intros [Hv Hn]; split; try done.
    + destruct (Z.lt_ge_cases cutoff k); [done|]. exfalso. apply Hn. eauto.
    + intros [_ ?]. lia.
  - rewrite H1. unfold completed. rewrite map_lookup_filter_Some. simpl.
    rewrite elem_of_rangeW, lookup_empty.
    split; [intros [?|[? _]]; [done|congruence]|by left].
Qed.

Lemma processAndSend_seen c w ws :
  seen (processAndSendWindowResults rangeF c w ws) =
    fold_left offer (windowResults rangeF w ws) (seen c) /\
  windowStates (processAndSendWindowResults rangeF c w ws) = windowStates c.
Proof.
  unfold processAndSendWindowResults, windowResults.
  set (c0 := log c _).
  assert (H0 : seen c0 = seen c) by (by apply seen_log).
  assert (W0 : windowStates c0 = windowStates c) by reflexivity.
  rewrite <- H0, <- W0. clearbody c0. clear H0 W0.
  revert c0. induction (rangeF (features ws)) as [|[f s] l IH]; intros c0;
    [done|].
  simpl fold_left. simpl omap.
  destruct (count s =? 0) eqn:Hs.
  - apply IH.
  - pose proof (calculateMeanVariance_log s f (windowStart ws)) as Hlg.
    unfold resultOf.
    destruct (calculateMeanVariance s f (windowStart ws)) as [[mean var] lg].
    simpl in *. destruct (IH (sendResult (logAll c0 lg)
      (mkResult f (windowStart ws) w (count s) (nullCount s) mean var)))
      as [IH1 IH2].
    rewrite IH1, IH2, seen_sendResult, windows_sendResult,
      seen_logAll, windows_logAll by done.
    done.
Qed.

Lemma processAndSend_fold c (l : list (Z * windowInfo)) :
  let c' := fold_left (λ (c' : Calculator) (kv : Z * windowInfo),
                         processAndSendWindowResults rangeF c' kv.1 kv.2)
                      l c in
  seen c' = fold_left offer
              (l ≫= (λ kv : Z * windowInfo, windowResults rangeF kv.1 kv.2))
              (seen c) /\
  windowStates c' = windowStates c.
Proof.
  cbv zeta. revert c. induction l as [|[w ws] l IH]; intros c; [done|].
  simpl fold_left. destruct (IH (processAndSendWindowResults rangeF c w ws))
    as [IH1 IH2].
  destruct (processAndSend_seen c w ws) as [P1 P2].
  rewrite IH1, IH2, P1, P2. split; [|done].
  by rewrite fold_left_app.
Qed.

(** A flush as its observer sees it: the results of the completed
    windows are offered to the channel one after the other, and the
    completed windows are gone from the live state. *)
Lemma flush_seen c cutoff :
  seen (flushWindows rangeW rangeF c cutoff) =
    fold_left offer (emitted rangeW rangeF c cutoff) (seen c) /\
  windowStates (flushWindows rangeW rangeF c cutoff) =
    retained cutoff (windowStates c).
Proof.
  unfold flushWindows, emitted. rewrite collect_spec.
  destruct (size (completed cutoff (windowStates c)) =? 0)%nat eqn:Hsz.
  - apply Nat.eqb_eq, map_size_empty_iff in Hsz. rewrite Hsz.
    assert (rangeW ∅ = []) as ->.
    { apply Permutation_nil_r. by rewrite rangeW_perm, map_to_list_empty. }
    done.
  - set (c2 := log _ _).
    destruct (processAndSend_fold c2
                (rangeW (completed cutoff (windowStates c)))) as [F1 F2].
    cbv zeta in F1, F2. rewrite F1, F2. subst c2.
    rewrite seen_log by reflexivity. done.
Qed.

Lemma offer_all rs (ch : chan AggregationResult) (d : list (string * Z)) :
  fold_left offer rs (ch, d) =
    (mkChan (buf ch ++ take (room ch) rs) (cap ch),
     d ++ (key <$> drop (room ch) rs)).
Proof.
  revert ch d. induction rs as [|r rs IH]; intros [b n] d.
  - simpl. rewrite take_nil, drop_nil, !app_nil_r. done.
  - simpl fold_left. unfold offer at 2, room. simpl.
    destruct (Nat.ltb_spec (length b) n) as [Hlt|Hge].
    + rewrite IH. unfold room. simpl. rewrite length_app. simpl.
      replace (n - length b)%nat with (S (n - (length b + 1)))%nat by lia.
      simpl. by rewrite <- app_assoc.
    + rewrite IH. unfold room. simpl.
      replace (n - length b)%nat with 0%nat by lia.
      simpl. rewrite !app_nil_r, drop_0. by rewrite <- app_assoc.
Qed.

(** Every emitted result stands for an accumulator of a completed
    window whose count is not 0, and every such accumulator has its
    result. *)
Lemma elem_of_emitted c cutoff r :
  r ∈ emitted rangeW rangeF c cutoff <->
  exists w ws f s,
    windowStates c !! w = Some ws /\ w <= cutoff /\
    features ws !! f = Some s /\ count s <> 0 /\
    r = resultOf w ws f s.
Proof.
  unfold emitted, windowResults. rewrite list_elem_of_bind. split.
  - intros [[w ws] [Hr Hw]]. apply elem_of_rangeW in Hw.
    apply map_lookup_filter_Some in Hw as [Hw Hle].
    apply list_elem_of_omap in Hr as [[f s] [Hf Hr]].
    apply elem_of_rangeF in Hf. simpl in *.
    destruct (Z.eqb_spec (count s) 0); [done|].
    exists w, ws, f, s. naive_solver.
  - intros (w & ws & f & s & Hw & Hle & Hf & Hs & ->).
    exists (w, ws). split.
    + apply list_elem_of_omap. exists (f, s). split; [by apply elem_of_rangeF|].
      simpl. by destruct (Z.eqb_spec (count s) 0).
    + apply elem_of_rangeW. by apply map_lookup_filter_Some.
Qed.

Lemma NoDup_windowResults w ws :
  NoDup (key <$> windowResults rangeF w ws).
Proof.
  unfold windowResults. pose proof (NoDup_rangeF (features ws)) as Hnd.
  induction (rangeF (features ws)) as [|[f s] l IH]; [constructor|].
  rewrite fmap_cons in Hnd. apply NoDup_cons in Hnd as [Hf Hnd].
  simpl omap. destruct (count s =? 0); simpl; [by apply IH|].
  apply NoDup_cons. split; [|by apply IH].
  intros Hin. apply list_elem_of_fmap in Hin as [r [Hk Hr]].
  apply list_elem_of_omap in Hr as [[f' s'] [Hin Hr]]. simpl in Hr.
  destruct (count s' =? 0); [done|]. injection Hr as <-.
  unfold key, resultOf in Hk. simpl in Hk. injection Hk as ->.
  apply Hf. apply list_elem_of_fmap. by exists (f', s').
Qed.

Lemma NoDup_emitted c cutoff :
  NoDup (key <$> emitted rangeW rangeF c cutoff).
Proof.
  unfold emitted.
  pose proof (NoDup_rangeW (completed cutoff (windowStates c))) as Hnd.
  induction (rangeW (completed cutoff (windowStates c))) as [|[w ws] l IH];
    [constructor|].
  rewrite fmap_cons in Hnd. apply NoDup_cons in Hnd as [Hw Hnd].
  rewrite bind_cons, fmap_app. simpl.
  apply NoDup_app. split; [apply NoDup_windowResults|]. split; [|by apply IH].
  intros k Hk1 Hk2.
  apply list_elem_of_fmap in Hk1 as [r1 [-> Hr1]].
  apply list_elem_of_fmap in Hk2 as [r2 [Hk Hr2]].
  unfold windowResults in Hr1.
  apply list_elem_of_omap in Hr1 as [[f1 s1] [_ Hr1]]. simpl in Hr1.
  destruct (count s1 =? 0); [done|]. injection Hr1 as <-.
  apply list_elem_of_bind in Hr2 as [[w2 ws2] [Hr2 Hin]].
  unfold windowResults in Hr2.
  apply list_elem_of_omap in Hr2 as [[f2 s2] [_ Hr2]]. simpl in Hr2.
  destruct (count s2 =? 0); [done|]. injection Hr2 as <-.
  unfold key, resultOf in Hk. simpl in Hk. injection Hk as -> ->.
  apply Hw. apply list_elem_of_fmap. by exists (w2, ws2).
Qed.

(** C3. A flush at [cutoff] removes from the live map exactly the
    windows that end at or before [cutoff] and keeps every other window
    as it was; the results it offers to the output channel, one after
    the other, are one for each accumulator of a removed window whose
    count is not 0, none for a count of 0, and no pair twice; when the
    channel has room for them they are appended to its buffer. *)
Theorem flush_partitions_and_emits (c : Calculator) (cutoff : Z) :
  let c' := flushWindows rangeW rangeF c cutoff in
  let rs := emitted rangeW rangeF c cutoff in
  (forall w, windowStates c' !! w =
             if decide (w <= cutoff) then None else windowStates c !! w) /\
  seen c' = fold_left offer rs (seen c) /\
  NoDup (key <$> rs) /\
  (forall r, r ∈ rs <->
     exists w ws f s,
       windowStates c !! w = Some ws /\ w <= cutoff /\
       features ws !! f = Some s /\ count s <> 0 /\
       r = resultOf w ws f s) /\
  ((length rs <= room (output c))%nat ->
     buf (output c') = buf (output c) ++ rs).
Proof.
  cbv zeta. destruct (flush_seen c cutoff) as [Hseen Hwin].
  split; [|split; [exact Hseen|split; [apply NoDup_emitted|split]]].
  - intros w. rewrite Hwin. unfold retained.
    destruct (decide (w <= cutoff)) as [Hle|Hgt].
    + apply map_lookup_filter_None. right. intros ws _. simpl. lia.
    + destruct (windowStates c !! w) as [ws|] eqn:Hw.
      * apply map_lookup_filter_Some. split; [done|simpl; lia].
      * apply map_lookup_filter_None. by left.
  - apply elem_of_emitted.
  - intros Hroom. unfold seen in Hseen. rewrite offer_all in Hseen.
    injection Hseen as Hout _. rewrite Hout. simpl.
    by rewrite take_ge.
Qed.

(** C7. A send into a channel at capacity leaves the channel as it was
    and logs the warning; a flush always runs to its end: the first
    results fill the free slots, every later one is logged as dropped,
    and the completed windows are removed all the same. *)
Theorem flush_drops_when_full (c : Calculator) (cutoff : Z) :
  let c' := flushWindows rangeW rangeF c cutoff in
  let rs := emitted rangeW rangeF c cutoff in
  (forall c0 r,
     (cap (output c0) <= length (buf (output c0)))%nat ->
     sendResult c0 r =
       log c0 (mkEntry WarnLevel dropText
                 [FString "feature_name" (FeatureName r);
                  FTime "window_end" (WindowEnd r)])) /\
  buf (output c') = buf (output c) ++ take (room (output c)) rs /\
  cap (output c') = cap (output c) /\
  dropped (logger c') =
    dropped (logger c) ++ (key <$> drop (room (output c)) rs) /\
  windowStates c' = retained cutoff (windowStates c).
Proof.
  cbv zeta. split.
  - intros c0 r Hfull. unfold sendResult, trySend.
    destruct (Nat.ltb_spec (length (buf (output c0))) (cap (output c0)));
      [lia|reflexivity].
  - destruct (flush_seen c cutoff) as [Hseen Hwin].
    unfold seen in Hseen. rewrite offer_all in Hseen.
    injection Hseen as Hout Hlog. rewrite Hout, Hlog. done.
Qed.
End Order.

Lemma range_sorted {K} `{Countable K} {A} (m : gmap K A) :
  map_to_list m ≡ₚ map_to_list m.
Proof. reflexivity. Qed.

(** The flush at 60 of [calc2]: the window ending at 60 goes out with one
    result for "x" (count 2, one null), the window ending at 120 stays. *)
Lemma flush_partitions_and_emits_witness :
  let c' := flushWindows map_to_list map_to_list calc2 60 in
  windowStates c' !! 60 = None /\
  windowStates c' !! 120 = windowStates calc2 !! 120 /\
  buf (output c') = [mkResult "x" 0 60 2 1 10%float 0%float].
Proof.
  cbv zeta.
  destruct (flush_partitions_and_emits map_to_list map_to_list
              (λ m, range_sorted m) (λ m, range_sorted m) calc2 60)
    as (Hw & _ & _ & _ & Hbuf).
  split; [by rewrite Hw|]. split; [by rewrite Hw|].
  rewrite Hbuf; [|vm_compute; lia]. vm_compute. reflexivity.
Defined.

(** The same flush in front of a full channel: the buffer keeps its one
    element, the result for ("x", 60) is logged as dropped, and the
    window ending at 60 is removed. *)
Lemma flush_drops_when_full_witness :
  let c' := flushWindows map_to_list map_to_list calc2_full 60 in
  buf (output c') = [Examples.result_x] /\
  dropped (logger c') = [("x", 60)] /\
  windowStates c' !! 60 = None.
Proof.
  cbv zeta.
  destruct (flush_drops_when_full map_to_list map_to_list
              (λ m, range_sorted m) calc2_full 60)
    as (_ & Hbuf & _ & Hlog & Hwin).
  rewrite Hbuf, Hlog, Hwin. vm_compute. auto.
Defined.

End FlushFacts.

(** ** Windows flush once *)

Module OnceFacts.
Import Go GoFacts Message Config Log Calc Emit Examples FlushFacts.

Lemma ingested_refl w c : ingested w c c.
Proof. unfold ingested. eauto. Qed.

Lemma ingested_trans w c1 c2 c3 :
  ingested w c1 c2 -> ingested w c2 c3 -> ingested w c1 c3.
Proof.
  intros (A1 & A2 & A3 & A4) (B1 & B2 & B3 & B4).
  repeat split; try congruence.
  intros w' Hw'. destruct (B4 w' Hw') as [?|Hw2]; [by left|]. by apply A4.
Qed.

Lemma ingested_log w c e : droppedKey e = None -> ingested w c (log c e).
Proof.
  intros He. repeat split; [by apply seen_log|]. intros w' Hw'. by right.
Qed.

Lemma ingested_store w c f s : ingested w c (storeStats c w f s).
Proof.
  repeat split. intros w' Hw'. right.
  unfold storeStats, setWindows in Hw'. simpl in Hw'.
  rewrite lookup_alter in Hw'. case_decide; [|done].
  subst. by apply fmap_is_Some in Hw'.
Qed.

Lemma ingested_insert w c x :
  ingested w c (setWindows c (<[w := x]> (windowStates c))).
Proof.
  repeat split. intros w' Hw'. simpl in Hw'.
  destruct (decide (w' = w)) as [->|Hne]; [by left|].
  right. by rewrite lookup_insert_ne in Hw'.
Qed.

Lemma ingested_getOrCreate w c f :
  ingested w c (getOrCreateFeatureStats c w f).1.
Proof.
  unfold getOrCreateFeatureStats.
  destruct (windowStates c !! w) as [wi|].
  - destruct (features wi !! f); simpl;
      [apply ingested_refl|apply ingested_store].
  - simpl. rewrite lookup_empty. simpl.
    eapply ingested_trans; [|apply ingested_store].
    eapply ingested_trans; [apply ingested_insert|].
    by apply ingested_log.
Qed.

Section Run.
Variable rangeW : gmap Z windowInfo -> list (Z * windowInfo).
Variable rangeF : gmap string FeatureStats -> list (string * FeatureStats).
Hypothesis rangeW_perm : forall m, rangeW m ≡ₚ map_to_list m.
Hypothesis rangeF_perm : forall m, rangeF m ≡ₚ map_to_list m.
Variable Sprintf_v : value -> string.

Lemma ingested_update w c msg cfg :
  ingested w c (updateFeatureStats Sprintf_v c msg cfg w).
Proof.
  unfold updateFeatureStats.
  pose proof (ingested_getOrCreate w c (Name cfg)) as Hg.
  destruct (getOrCreateFeatureStats c w (Name cfg)) as [c1 s].
  simpl in Hg. eapply ingested_trans; [exact Hg|].
  destruct (HasNonNull msg (Name cfg)); cbn [negb];
    [|apply ingested_store].
  unfold processNonNullValue, processNumericalValue.
  destruct (String.eqb (MetricType cfg) "numerical").
  - destruct (GetFloat64 msg (Name cfg)); cbv beta iota zeta; cbn [negb];
      [apply ingested_store|].
    eapply ingested_trans; [apply ingested_store|].
    by apply ingested_log.
  - cbv beta iota zeta. cbn [negb].
    eapply ingested_trans; [|by apply ingested_log].
    eapply ingested_trans; [|apply ingested_store].
    by apply ingested_log.
Qed.

Lemma ingested_processMessage c msg now :
  ingested (Truncate now (WindowSize c) + WindowSize c) c
           (processMessage Sprintf_v c msg now).
Proof.
  unfold processMessage.
  generalize (Truncate now (WindowSize c) + WindowSize c). intros w.
  generalize (featuresToRun c). intros l. revert c.
  induction l as [|cfg l IH]; intros c; [apply ingested_refl|].
  simpl. eapply ingested_trans; [apply ingested_update|apply IH].
Qed.

Lemma WindowSize_sendResult c r : WindowSize (sendResult c r) = WindowSize c.
Proof.
  unfold sendResult. by destruct (trySend (output c) r) as [out []].
Qed.

Lemma WindowSize_logAll c lg : WindowSize (logAll c lg) = WindowSize c.
Proof.
  unfold logAll. revert c. induction lg as [|e lg IH]; intros c; [done|].
  simpl. by rewrite IH.
Qed.

Lemma WindowSize_processAndSend c w ws :
  WindowSize (processAndSendWindowResults rangeF c w ws) = WindowSize c.
Proof.
  unfold processAndSendWindowResults. set (c0 := log c _).
  change (WindowSize c) with (WindowSize c0). clearbody c0. revert c0.
  induction (rangeF (features ws)) as [|[f s] l IH]; intros c0; [done|].
  simpl. destruct (count s =? 0); [apply IH|].
  destruct (calculateMeanVariance s f (windowStart ws)) as [[mean var] lg].
  by rewrite IH, WindowSize_sendResult, WindowSize_logAll.
Qed.

Lemma WindowSize_flush c cutoff :
  WindowSize (flushWindows rangeW rangeF c cutoff) = WindowSize c.
Proof.
  unfold flushWindows, collectAndRemoveCompletedWindows.
  destruct (fold_left _ _ _) as [tp live].
  destruct (size tp =? 0)%nat; [done|].
  set (c2 := log _ _). change (WindowSize c) with (WindowSize c2).
  clearbody c2. revert c2.
  induction (rangeW tp) as [|[w ws] l IH]; intros c2; [done|].
  simpl. by rewrite IH, WindowSize_processAndSend.
Qed.






End Run.


End OnceFacts.

(** ** Shutdown of the pipeline *)

Module PipeFacts.
Import Go Pipe Shutdown.





End PipeFacts.

(** ** Further properties of the calculator *)

Module WindowFacts.
Import Go GoFacts Message Config Log Calc Ingest Emit Examples Windows.
Import IngestFacts FlushFacts OnceFacts.

Lemma variance_not_below_zero stats featureName wStart :
  ((calculateMeanVariance stats featureName wStart).1.2 <? 0)%float = false.
Proof.
  unfold calculateMeanVariance.
  destruct (_ <=? 0); [reflexivity|]. cbv zeta.
  set (raw := (_ - _)%float).
  destruct (raw <? 0)%float eqn:Hneg; [|exact Hneg].
  destruct (- tiny <? raw)%float; reflexivity.
Qed.

(** X1. The variance that calculateMeanVariance returns is never
    negative: it is NaN, zero or positive, for every accumulator, and so
    is the variance of every result built at flush time. *)
Theorem variance_never_negative (stats : FeatureStats) (featureName : string)
    (wStart w : Z) (ws : windowInfo) :
  ((calculateMeanVariance stats featureName wStart).1.2 <? 0)%float = false /\
  (Variance (resultOf w ws featureName stats) <? 0)%float = false.
Proof.
  split; [apply variance_not_below_zero|].
  unfold resultOf. simpl. apply variance_not_below_zero.
Qed.

Lemma setWindows_same c : setWindows c (windowStates c) = c.
Proof. by destruct c. Qed.

Section Order.
Variable rangeW : gmap Z windowInfo -> list (Z * windowInfo).
Variable rangeF : gmap string FeatureStats -> list (string * FeatureStats).
Hypothesis rangeW_perm : forall m, rangeW m ≡ₚ map_to_list m.
Hypothesis rangeF_perm : forall m, rangeF m ≡ₚ map_to_list m.

Lemma flush_identity (c : Calculator) (cutoff : Z) :
  (forall w, is_Some (windowStates c !! w) -> cutoff < w) ->
  flushWindows rangeW rangeF c cutoff = c.
Proof.
  intros Hlive. unfold flushWindows.
  rewrite (collect_spec rangeW rangeW_perm).
  assert (Hdone : completed cutoff (windowStates c) = ∅).
  { apply map_empty_filter_2. intros w ws Hw. simpl.
    specialize (Hlive w (ex_intro _ ws Hw)). lia. }
  assert (Hkeep : retained cutoff (windowStates c) = windowStates c).
  { apply map_filter_id. intros w ws Hw. simpl. apply Hlive. eauto. }
  rewrite Hdone, Hkeep, map_size_empty. simpl. apply setWindows_same.
Qed.

(** X2. A flush at a cutoff before the end of every live window is the
    identity: no window is removed, nothing is offered to the channel
    and nothing is logged. *)
Theorem flush_nothing_complete (c : Calculator) (cutoff : Z) :
  (forall w, is_Some (windowStates c !! w) -> cutoff < w) ->
  flushWindows rangeW rangeF c cutoff = c /\
  emitted rangeW rangeF c cutoff = [].
Proof.
  intros Hlive. split; [by apply flush_identity|].
  unfold emitted.
  assert (Hdone : completed cutoff (windowStates c) = ∅).
  { apply map_empty_filter_2. intros w ws Hw. simpl.
    specialize (Hlive w (ex_intro _ ws Hw)). lia. }
  rewrite Hdone.
  assert (rangeW ∅ = []) as ->; [|done].
  apply Permutation_nil_r. by rewrite rangeW_perm, map_to_list_empty.
Qed.

(** X3. Flushing is idempotent: after a flush at [T], a flush at [T]
    or at any earlier cutoff changes nothing. *)
Theorem flush_twice (c : Calculator) (T T' : Z) :
  T' <= T ->
  flushWindows rangeW rangeF (flushWindows rangeW rangeF c T) T' =
    flushWindows rangeW rangeF c T.
Proof.
  intros Hle. apply flush_identity.
  destruct (flush_seen rangeW rangeF rangeW_perm c T) as [_ Hwin].
  intros w [ws Hw]. rewrite Hwin in Hw.
  apply map_lookup_filter_Some in Hw as [_ Hw]. simpl in Hw. lia.
Qed.
End Order.

Lemma flush_nothing_complete_witness :
  flushWindows map_to_list map_to_list calc2 59 = calc2.
Proof.
  apply (flush_nothing_complete map_to_list map_to_list
           (λ m, range_sorted m)).
  intros w [ws Hw].
  assert (Hk : w ∈ dom (windowStates calc2)) by (apply elem_of_dom; eauto).
  assert (Hd : dom (windowStates calc2) = {[ 60; 120 ]})
    by (vm_compute; reflexivity).
  rewrite Hd in Hk. apply elem_of_union in Hk as [Hk|Hk];
    apply elem_of_singleton in Hk; lia.
Defined.

Lemma flush_twice_witness :
  flushWindows map_to_list map_to_list
    (flushWindows map_to_list map_to_list calc2 60) 60 =
  flushWindows map_to_list map_to_list calc2 60.
Proof.
  apply (flush_twice map_to_list map_to_list (λ m, range_sorted m)). lia.
Defined.

Lemma wellFormed_log c e : wellFormed c -> wellFormed (log c e).
Proof. intros H. exact H. Qed.

Lemma wellFormed_store c w f s : wellFormed c -> wellFormed (storeStats c w f s).
Proof.
  intros H w' ws' Hw'. unfold storeStats, setWindows in Hw'. simpl in Hw'.
  rewrite lookup_alter in Hw'. case_decide as Hd.
  - subst w'. destruct (windowStates c !! w) as [ws|] eqn:Hw; [|done].
    simpl in Hw'. injection Hw' as <-. simpl. by apply H.
  - by apply H.
Qed.

Lemma wellFormed_getOrCreate c w f :
  wellFormed c -> wellFormed (getOrCreateFeatureStats c w f).1.
Proof.
  intros H. unfold getOrCreateFeatureStats.
  destruct (windowStates c !! w) as [wi|] eqn:Hw.
  - destruct (features wi !! f); simpl; [done|by apply wellFormed_store].
  - simpl. rewrite lookup_empty. simpl. apply wellFormed_store.
    apply wellFormed_log. intros w' ws' Hw'. simpl in Hw'.
    destruct (decide (w' = w)) as [->|Hne].
    + rewrite lookup_insert_eq in Hw'. injection Hw' as <-. simpl. lia.
    + rewrite lookup_insert_ne in Hw' by done. by apply H.
Qed.

Section Keep.
Variable Sprintf_v : value -> string.

Lemma wellFormed_update c msg cfg w :
  wellFormed c -> wellFormed (updateFeatureStats Sprintf_v c msg cfg w).
Proof.
  intros H. unfold updateFeatureStats.
  pose proof (wellFormed_getOrCreate c w (Name cfg) H) as Hg.
  destruct (getOrCreateFeatureStats c w (Name cfg)) as [c1 s].
  simpl in Hg.
  destruct (HasNonNull msg (Name cfg)); cbn [negb];
    [|by apply wellFormed_store].
  unfold processNonNullValue, processNumericalValue.
  destruct (String.eqb (MetricType cfg) "numerical").
  - destruct (GetFloat64 msg (Name cfg)); cbv beta iota zeta; cbn [negb];
      [by apply wellFormed_store|].
    apply wellFormed_log. by apply wellFormed_store.
  - cbv beta iota zeta. cbn [negb]. apply wellFormed_log.
    apply wellFormed_store. by apply wellFormed_log.
Qed.

Lemma wellFormed_processMessage c msg now :
  wellFormed c -> wellFormed (processMessage Sprintf_v c msg now).
Proof.
  unfold processMessage.
  generalize (Truncate now (WindowSize c) + WindowSize c). intros w.
  generalize (featuresToRun c). intros l. revert c.
  induction l as [|cfg l IH]; intros c H; [done|].
  simpl. apply IH. by apply wellFormed_update.
Qed.
End Keep.

Section Loop.
Variable rangeW : gmap Z windowInfo -> list (Z * windowInfo).
Variable rangeF : gmap string FeatureStats -> list (string * FeatureStats).
Hypothesis rangeW_perm : forall m, rangeW m ≡ₚ map_to_list m.
Hypothesis rangeF_perm : forall m, rangeF m ≡ₚ map_to_list m.
Variable Sprintf_v : value -> string.

Lemma output_processMessage c msg now :
  output (processMessage Sprintf_v c msg now) = output c.
Proof.
  destruct (ingested_processMessage Sprintf_v c msg now) as (_ & _ & H & _).
  unfold seen in H. by injection H.
Qed.

Lemma output_flush c cutoff :
  output (flushWindows rangeW rangeF c cutoff) =
    mkChan (buf (output c) ++
            take (room (output c)) (emitted rangeW rangeF c cutoff))
           (cap (output c)).
Proof.
  destruct (flush_seen rangeW rangeF rangeW_perm c cutoff) as [H _].
  unfold seen in H. rewrite offer_all in H. by injection H.
Qed.

(** An invariant of the calculator that ingest, flush and logging keep,
    and that makes every emitted result satisfy [P], holds along the
    whole loop, and every result the loop delivers satisfies [P]. *)
Section Invariant.
Variable Inv : Calculator -> Prop.
Variable P : AggregationResult -> Prop.
Hypothesis Inv_log : forall c e, Inv c -> Inv (log c e).
Hypothesis Inv_msg :
  forall c msg now, Inv c -> Inv (processMessage Sprintf_v c msg now).
Hypothesis Inv_flush :
  forall c cutoff, Inv c -> Inv (flushWindows rangeW rangeF c cutoff).
Hypothesis Inv_emitted :
  forall c cutoff r, Inv c -> r ∈ emitted rangeW rangeF c cutoff -> P r.

Lemma flush_delivers c cutoff :
  Inv c ->
  cap (output (flushWindows rangeW rangeF c cutoff)) = cap (output c) /\
  exists new,
    buf (output (flushWindows rangeW rangeF c cutoff)) =
      buf (output c) ++ new /\
    Forall P new.
Proof.
  intros HI. rewrite output_flush. simpl. split; [done|].
  eexists. split; [reflexivity|]. apply Forall_take.
  apply Forall_forall. intros r Hr. by eapply Inv_emitted.
Qed.

Lemma loop_delivers evs : forall c,
  Inv c ->
  let c' := (loop rangeW rangeF Sprintf_v c evs).1 in
  Inv c' /\ cap (output c') = cap (output c) /\
  exists new, buf (output c') = buf (output c) ++ new /\ Forall P new.
Proof.
  induction evs as [|ev evs IH]; intros c HI; cbv zeta.
  - simpl. split; [done|]. split; [done|]. exists [].
    by rewrite app_nil_r.
  - destruct ev as [msg now|now|tick|now err]; simpl loop.
    + destruct (IH (processMessage Sprintf_v c msg now))
        as (I1 & I2 & new & I3 & I4); [by apply Inv_msg|].
      cbv zeta in I1, I2, I3. rewrite output_processMessage in I2, I3.
      eauto.
    + cbn [fst]. unfold info. set (c1 := log c _).
      assert (H1 : Inv c1) by (by apply Inv_log).
      destruct (flush_delivers c1 now H1) as (F1 & new & F2 & F3).
      split; [by apply Inv_log, Inv_flush|]. eauto.
    + set (c1 := log c _).
      assert (H1 : Inv c1) by (by apply Inv_log).
      destruct (flush_delivers c1 tick H1) as (F1 & new & F2 & F3).
      destruct (IH (flushWindows rangeW rangeF c1 tick))
        as (I1 & I2 & new' & I3 & I4); [by apply Inv_flush|].
      cbv zeta in I1, I2, I3. split; [done|].
      split; [by rewrite I2, F1|].
      exists (new ++ new'). rewrite I3, F2, app_assoc.
      split; [done|by apply Forall_app].
    + cbn [fst]. unfold info. set (c1 := log c _).
      assert (H1 : Inv c1) by (by apply Inv_log).
      destruct (flush_delivers c1 now H1) as (F1 & new & F2 & F3).
      split; [by apply Inv_log, Inv_flush|]. eauto.
Qed.
End Invariant.

Lemma wellFormed_flush c cutoff :
  wellFormed c -> wellFormed (flushWindows rangeW rangeF c cutoff).
Proof.
  intros H w ws Hw.
  destruct (flush_seen rangeW rangeF rangeW_perm c cutoff) as [_ Hwin].
  rewrite Hwin in Hw. apply map_lookup_filter_Some in Hw as [Hw _].
  rewrite (WindowSize_flush rangeW rangeF). by apply H.
Qed.

(** X4. Starting from a calculator whose windows are well formed (the
    new calculator has none), all that the loop ever keeps in its live
    map are windows stored under their own end and one window length
    long, and every result it delivers spans exactly one window length:
    [WindowStart = WindowEnd - WindowSize]. *)
Theorem windows_stay_well_formed (c : Calculator) (evs : list event) :
  wellFormed c ->
  let c' := (loop rangeW rangeF Sprintf_v c evs).1 in
  wellFormed c' /\ WindowSize c' = WindowSize c /\
  exists new,
    buf (output c') = buf (output c) ++ new /\
    Forall (spansWindow (WindowSize c)) new.
Proof.
  intros Hwf. cbv zeta.
  destruct (loop_delivers
              (λ c', WindowSize c' = WindowSize c /\ wellFormed c')
              (spansWindow (WindowSize c))) with (evs := evs) (c := c)
    as ((I1 & I2) & _ & new & I3 & I4); try done.
  - intros c0 msg now [H1 H2]. split; [|by apply wellFormed_processMessage].
    destruct (ingested_processMessage Sprintf_v c0 msg now) as (E & _).
    congruence.
  - intros c0 cutoff [H1 H2]. split; [|by apply wellFormed_flush].
    by rewrite (WindowSize_flush rangeW rangeF).
  - intros c0 cutoff r [H1 H2] Hr.
    apply (elem_of_emitted rangeW rangeF rangeW_perm rangeF_perm) in Hr
      as (w & ws & f & s & Hw & _ & _ & _ & ->).
    destruct (H2 w ws Hw) as [_ Hstart].
    unfold spansWindow, resultOf. simpl. congruence.
  - eauto.
Qed.

(** X5. The output buffer never holds more results than the capacity of
    the channel, whatever the loop receives. *)
Theorem output_within_capacity (c : Calculator) (evs : list event) :
  withinCapacity c ->
  withinCapacity (loop rangeW rangeF Sprintf_v c evs).1.
Proof.
  intros Hc.
  destruct (loop_delivers withinCapacity (λ _, True)) with (evs := evs) (c := c)
    as (I1 & _); try done.
  - intros c0 msg now H. unfold withinCapacity.
    by rewrite output_processMessage.
  - intros c0 cutoff H. unfold withinCapacity in *.
    rewrite output_flush. simpl. rewrite length_app, length_take.
    unfold room. lia.
Qed.

(** X6. When the input channel is closed at instant [now], Run flushes
    the windows that end at or before [now] and returns nil; a window
    that ends after [now], the one still being filled, stays in the
    live map and none of its results is offered to the channel.  The
    events after the close are not looked at. *)
Theorem shutdown_keeps_open_window (c : Calculator) (now : Z)
    (rest : list event) :
  let r := loop rangeW rangeF Sprintf_v c (InputClosed now :: rest) in
  r.2 = Some None /\
  (forall w, windowStates r.1 !! w =
             if decide (w <= now) then None else windowStates c !! w) /\
  seen r.1 = fold_left offer (emitted rangeW rangeF c now) (seen c) /\
  Forall (λ res, WindowEnd res <= now) (emitted rangeW rangeF c now).
Proof.
  cbv zeta. simpl loop. cbn [fst snd]. unfold info.
  set (c1 := log c _).
  destruct (flush_seen rangeW rangeF rangeW_perm c1 now) as [Hseen Hwin].
  split; [done|]. split; [|split].
  - intros w. change (windowStates (log ?x _)) with (windowStates x).
    rewrite Hwin. change (windowStates c1) with (windowStates c).
    unfold retained. destruct (decide (w <= now)) as [Hle|Hgt].
    + apply map_lookup_filter_None. right. intros ws _. simpl. lia.
    + destruct (windowStates c !! w) as [ws|] eqn:Hw.
      * apply map_lookup_filter_Some. split; [done|simpl; lia].
      * apply map_lookup_filter_None. by left.
  - rewrite seen_log by reflexivity. rewrite Hseen. subst c1.
    by rewrite seen_log by reflexivity.
  - apply Forall_forall. intros res Hres.
    apply (elem_of_emitted rangeW rangeF rangeW_perm rangeF_perm) in Hres
      as (w & ws & f & s & _ & Hle & _ & _ & ->). done.
Qed.
End Loop.

Section Message.
Variable Sprintf_v : value -> string.

Lemma statsAt_update_other c msg cfg w w' f' :
  (w', f') <> (w, Name cfg) ->
  statsAt (updateFeatureStats Sprintf_v c msg cfg w) w' f' = statsAt c w' f'.
Proof.
  intros Hne. unfold updateFeatureStats.
  pose proof (getOrCreate_spec c w (Name cfg)) as Hg.
  destruct (getOrCreateFeatureStats c w (Name cfg)) as [c1 s].
  destruct Hg as (_ & _ & _ & Ho).
  destruct (HasNonNull msg (Name cfg)); cbn [negb].
  - unfold processNonNullValue, processNumericalValue.
    destruct (String.eqb (MetricType cfg) "numerical").
    + destruct (GetFloat64 msg (Name cfg)); cbv beta iota zeta; cbn [negb];
        rewrite ?statsAt_log, statsAt_store_ne by done; by apply Ho.
    + cbv beta iota zeta. cbn [negb].
      rewrite statsAt_log, statsAt_store_ne by done. by apply Ho.
  - rewrite statsAt_store_ne by done. by apply Ho.
Qed.

Lemma updateAll_spec msg w (l : list FeatureConfig) : forall c,
  NoDup (Name <$> l) ->
  let c' := fold_left (λ c' cfg, updateFeatureStats Sprintf_v c' msg cfg w)
                      l c in
  (forall cfg, cfg ∈ l ->
     statsAt c' w (Name cfg) =
       Some (bump msg cfg (default zeroStats (statsAt c w (Name cfg))))) /\
  (forall w' f', (w' <> w \/ f' ∉ Name <$> l) ->
     statsAt c' w' f' = statsAt c w' f').
Proof.
  induction l as [|cfg0 l IH]; intros c Hnd; cbv zeta.
  - split; [intros cfg Hin; by apply elem_of_nil in Hin|done].
  - rewrite fmap_cons in Hnd. apply NoDup_cons in Hnd as [Hnew Hnd].
    simpl fold_left.
    destruct (IH (updateFeatureStats Sprintf_v c msg cfg0 w) Hnd)
      as [IH1 IH2].
    split.
    + intros cfg Hin. apply elem_of_cons in Hin as [->|Hin].
      * rewrite IH2 by (by right). apply statsAt_update.
      * rewrite IH1 by done. rewrite statsAt_update_other; [done|].
        intros [= Heq]. apply Hnew. rewrite <- Heq.
        apply list_elem_of_fmap. by exists cfg.
    + intros w' f' Hor. rewrite IH2.
      * apply statsAt_update_other. intros [= -> ->].
        destruct Hor as [?|Hn]; [done|]. apply Hn. rewrite fmap_cons.
        apply elem_of_cons. by left.
      * destruct Hor as [?|Hn]; [by left|]. right. intros Hin. apply Hn.
        rewrite fmap_cons. apply elem_of_cons. by right.
Qed.

(** X7. One message, ingested at [now] by a calculator whose features
    have distinct names, advances the count of every configured feature
    in the window [truncate now size + size] by one, its null count by
    one exactly when the message has no non-null value for it, and
    touches no accumulator of another window or of a feature that is
    not configured. *)
Theorem processMessage_updates_features (c : Calculator)
    (msg : gmap string value) (now : Z) :
  NoDup (Name <$> featuresToRun c) ->
  let w := Truncate now (WindowSize c) + WindowSize c in
  let c' := processMessage Sprintf_v c msg now in
  (forall cfg, cfg ∈ featuresToRun c ->
     exists s',
       statsAt c' w (Name cfg) = Some s' /\
       let s := default zeroStats (statsAt c w (Name cfg)) in
       count s' = wrap64 (count s + 1) /\
       nullCount s' = (if HasNonNull msg (Name cfg) then nullCount s
                       else wrap64 (nullCount s + 1))) /\
  (forall w' f', (w' <> w \/ f' ∉ Name <$> featuresToRun c) ->
     statsAt c' w' f' = statsAt c w' f').
Proof.
  intros Hnd. cbv zeta. unfold processMessage.
  destruct (updateAll_spec msg
              (Truncate now (WindowSize c) + WindowSize c)
              (featuresToRun c) c Hnd) as [H1 H2].
  split; [|exact H2].
  intros cfg Hin. eexists. split; [by apply H1|].
  by rewrite bump_count, bump_nullCount.
Qed.

(** X8. For a feature whose metric type is not "numerical" the values
    are counted but never accumulated: after any run of ingests into a
    fresh accumulator both sums are still 0, whatever the messages
    hold. *)
Theorem unsupported_metric_sums_nothing (c : Calculator)
    (cfg : FeatureConfig) (w : Z) (msgs : list (gmap string value)) :
  MetricType cfg <> "numerical" ->
  statsAt c w (Name cfg) = None ->
  msgs <> [] ->
  exists s,
    statsAt (ingestAll Sprintf_v c cfg w msgs) w (Name cfg) = Some s /\
    count s = wrap64 (Z.of_nat (length msgs)) /\
    nullCount s = wrap64 (nulls (Name cfg) msgs) /\
    sum s = 0%float /\ sumSq s = 0%float.
Proof.
  intros Hty Hnew Hne.
  eexists. split; [by apply statsAt_ingestAll|].
  rewrite Hnew. change (default zeroStats None) with zeroStats.
  destruct (bump_all_counts cfg msgs zeroStats) as [Hc Hn];
    [by vm_compute|by vm_compute|].
  rewrite Hc, Hn. split; [done|]. split; [done|].
  assert (Hsum : forall s,
    sum (fold_left (λ s msg, bump msg cfg s) msgs s) = sum s /\
    sumSq (fold_left (λ s msg, bump msg cfg s) msgs s) = sumSq s).
  { clear Hc Hn Hne. induction msgs as [|m msgs IH]; intros s; [done|].
    simpl fold_left. destruct (IH (bump m cfg s)) as [-> ->].
    unfold bump. apply String.eqb_neq in Hty. rewrite Hty.
    by destruct (HasNonNull m (Name cfg)). }
  destruct (Hsum zeroStats) as [-> ->]. done.
Qed.
End Message.

Lemma processMessage_updates_features_witness :
  let c' := processMessage show calc2 {[ "x" := VString "abc" ]} 100 in
  (count <$> statsAt c' 120 "x") = Some 2 /\
  statsAt c' 60 "x" = statsAt calc2 60 "x".
Proof.
  cbv zeta.
  destruct (processMessage_updates_features show calc2
              {[ "x" := VString "abc" ]} 100) as [H1 H2].
  - vm_compute. apply NoDup_cons. split; [apply not_elem_of_nil|constructor].
  - split; [|apply H2; left; vm_compute; discriminate].
    destruct (H1 cfg_x) as (s' & Hs & Hc & _);
      [apply elem_of_cons; by left|].
    change (Truncate 100 (WindowSize calc2) + WindowSize calc2) with 120 in Hs.
    change (Name cfg_x) with "x" in Hs. rewrite Hs. simpl. f_equal.
    rewrite Hc. vm_compute. reflexivity.
Defined.

Lemma unsupported_metric_sums_nothing_witness :
  let cfg := mkFeatureConfig "c" "categorical"
               (mkThresholds None None None None None) in
  exists s,
    statsAt (ingestAll show calc0 cfg 60
               [ {[ "c" := VFloat64 5%float ]}; {[ "c" := VString "A" ]} ])
            60 "c" = Some s /\
    count s = 2 /\ sum s = 0%float.
Proof.
  cbv zeta.
  destruct (unsupported_metric_sums_nothing show calc0
              (mkFeatureConfig "c" "categorical"
                 (mkThresholds None None None None None)) 60
              [ {[ "c" := VFloat64 5%float ]}; {[ "c" := VString "A" ]} ])
    as (s & Hs & Hc & _ & Hsum & _);
    [discriminate | reflexivity | discriminate |].
  exists s. split; [exact Hs|]. split; [rewrite Hc; reflexivity|exact Hsum].
Defined.

Lemma wellFormed_new size feats out lg :
  wellFormed (NewCalculator size feats out lg).
Proof. intros w ws Hw. simpl in Hw. by rewrite lookup_empty in Hw. Qed.

Lemma windows_stay_well_formed_witness :
  let c' := (loop map_to_list map_to_list show calc0
               [Received {[ "x" := VFloat64 3%float ]} 61; Tick 120]).1 in
  wellFormed c' /\
  buf (output c') = [mkResult "x" 60 120 1 0 3%float 0%float].
Proof.
  cbv zeta.
  destruct (windows_stay_well_formed map_to_list map_to_list
              (λ m, range_sorted m) (λ m, range_sorted m) show calc0
              [Received {[ "x" := VFloat64 3%float ]} 61; Tick 120])
    as (H & _); [apply wellFormed_new|].
  split; [exact H|]. vm_compute. reflexivity.
Defined.

Lemma output_within_capacity_witness :
  withinCapacity
    (loop map_to_list map_to_list show calc2_full [Tick 60; Tick 120]).1.
Proof.
  apply (output_within_capacity map_to_list map_to_list
           (λ m, range_sorted m)).
  unfold withinCapacity. vm_compute. lia.
Defined.

(** [calc2] shut down at 100: the window ending at 60 is delivered, the
    one ending at 120 is left behind. *)
Lemma shutdown_keeps_open_window_witness :
  let r := loop map_to_list map_to_list show calc2 [InputClosed 100] in
  r.2 = Some None /\
  windowStates r.1 !! 120 = windowStates calc2 !! 120 /\
  WindowEnd <$> buf (output r.1) = [60].
Proof.
  cbv zeta.
  destruct (shutdown_keeps_open_window map_to_list map_to_list
              (λ m, range_sorted m) (λ m, range_sorted m) show calc2 100 [])
    as (H1 & H2 & _).
  split; [exact H1|]. split; [by rewrite H2|]. vm_compute. reflexivity.
Defined.

End WindowFacts.

(** ** Further properties of the evaluator *)

Module EvaluateFacts.
Import Go Config Log Calc Alert Expect Emit Examples Evaluate.
Import FloatFacts AlertFacts.

Lemma insertAll_lookup (feats : list FeatureConfig) :
  forall (m : gmap string FeatureConfig) n,
    fold_left (λ (m : gmap string FeatureConfig) f, <[Name f := f]> m) feats m
      !! n =
    match lastNamed n feats with Some g => Some g | None => m !! n end.
Proof.
  induction feats as [|f feats IH]; intros m n; [done|].
  simpl. rewrite IH. destruct (lastNamed n feats); [done|].
  destruct (String.eqb_spec (Name f) n) as [->|Hne].
  - by rewrite lookup_insert_eq.
  - by rewrite lookup_insert_ne.
Qed.

Lemma lastNamed_Some n feats g :
  lastNamed n feats = Some g -> g ∈ feats /\ Name g = n.
Proof.
  induction feats as [|f feats IH]; [done|]. simpl.
  destruct (lastNamed n feats) as [g'|].
  - intros [= <-]. destruct (IH eq_refl). split; [by right|done].
  - destruct (String.eqb_spec (Name f) n); [|done].
    intros [= <-]. split; [by left|done].
Qed.

Lemma lastNamed_None n feats :
  lastNamed n feats = None <-> n ∉ Name <$> feats.
Proof.
  induction feats as [|f feats IH]; simpl.
  - split; [intros _; apply not_elem_of_nil|done].
  - rewrite not_elem_of_cons. destruct (lastNamed n feats) as [g|].
    + split; [done|]. intros [_ Hn]. by apply IH in Hn.
    + destruct (String.eqb_spec (Name f) n) as [Heq|Hne].
      * split; [done|]. intros [Hn _]. congruence.
      * split; [|done]. intros _. split; [congruence|]. by apply IH.
Qed.

Lemma insertAll_lookup_known (feats : list FeatureConfig) n :
  is_Some (fold_left (λ (m : gmap string FeatureConfig) f, <[Name f := f]> m)
                     feats ∅ !! n) <-> n ∈ Name <$> feats.
Proof.
  rewrite insertAll_lookup, lookup_empty.
  destruct (lastNamed n feats) as [g|] eqn:Hl.
  - split; [|eauto]. intros _. apply lastNamed_Some in Hl as [Hin <-].
    apply list_elem_of_fmap. by exists g.
  - apply lastNamed_None in Hl. split; [by intros [? ?]|done].
Qed.

(** X9. NewAlerter indexes the configured features by name: a name is
    known exactly when some configuration carries it, the configuration
    found for a name is one of the list with that name, and of several
    configurations with one name the last one is found. *)
Theorem NewAlerter_lookup (feats : list FeatureConfig) (lg : list entry)
    (n : string) :
  (is_Some (features (NewAlerter feats lg) !! n) <-> n ∈ Name <$> feats) /\
  (forall cfg, features (NewAlerter feats lg) !! n = Some cfg ->
     cfg ∈ feats /\ Name cfg = n) /\
  (forall before cfg after,
     feats = before ++ cfg :: after -> Name cfg = n ->
     n ∉ Name <$> after ->
     features (NewAlerter feats lg) !! n = Some cfg).
Proof.
  unfold NewAlerter. simpl. rewrite insertAll_lookup, lookup_empty.
  split; [|split].
  - destruct (lastNamed n feats) as [g|] eqn:Hl.
    + split; [|eauto]. intros _. apply lastNamed_Some in Hl as [Hin <-].
      apply list_elem_of_fmap. by exists g.
    + apply lastNamed_None in Hl. split; [by intros [? ?]|done].
  - intros cfg Hcfg. destruct (lastNamed n feats) as [g|] eqn:Hl; [|done].
    injection Hcfg as <-. by apply lastNamed_Some.
  - intros before cfg after -> Hname Hafter.
    apply lastNamed_None in Hafter.
    assert (H : lastNamed n (before ++ cfg :: after) = Some cfg).
    { induction before as [|b before IH]; simpl.
      - rewrite Hafter. apply String.eqb_eq in Hname. by rewrite Hname.
      - by rewrite IH. }
    by rewrite H.
Qed.

Lemma NewAlerter_lookup_witness :
  let strict := mkFeatureConfig "x" "numerical" th_x in
  features (NewAlerter [cfg_x; strict] []) !! "x" = Some strict /\
  features (NewAlerter [cfg_x; strict] []) !! "y" = None.
Proof.
  cbv zeta.
  destruct (NewAlerter_lookup
              [cfg_x; mkFeatureConfig "x" "numerical" th_x] [] "x")
    as (_ & _ & H).
  split.
  - apply (H [cfg_x] _ []); [reflexivity|reflexivity|apply not_elem_of_nil].
  - vm_compute. reflexivity.
Defined.

Lemma warns_0 lg : warns 0 lg lg.
Proof. exists []. by rewrite app_nil_r. Qed.

Lemma warns_1 st text f w actual t check cmp :
  warns 1 st.1 (violation st text f w actual t check cmp).1.
Proof. eexists [_]. simpl. repeat split. by repeat constructor. Qed.

Lemma warns_trans n1 n2 lg1 lg2 lg3 :
  warns n1 lg1 lg2 -> warns n2 lg2 lg3 -> warns (n1 + n2) lg1 lg3.
Proof.
  intros (w1 & -> & <- & F1) (w2 & -> & <- & F2).
  exists (w1 ++ w2). rewrite app_assoc, length_app.
  repeat split. by apply Forall_app.
Qed.

Ltac count_warns :=
  repeat match goal with
         | |- context [(?a <? ?b)%float] => destruct (a <? b)%float
         end;
  cbn [negb andb hit Nat.add];
  first [ apply warns_0
        | apply warns_1
        | eapply (warns_trans 1 1); [apply warns_1|apply warns_1] ].

Lemma checkNullRate_warns st f w rate th :
  warns (hit (negb (IsNaN rate) && above th rate))
        st.1 (checkNullRate st f w rate th).1.
Proof.
  unfold checkNullRate, above.
  destruct th as [t|], (IsNaN rate); count_warns.
Qed.

Lemma checkMean_warns st f w x lo hi :
  warns (hit (negb (IsNaN x) && below lo x) +
         hit (negb (IsNaN x) && above hi x))
        st.1 (checkMean st f w x lo hi).1.
Proof.
  unfold checkMean, above, below.
  destruct (IsNaN x), lo as [t|], hi as [u|]; count_warns.
Qed.

Lemma checkStdDev_warns st f w x lo hi :
  warns (hit (negb (IsNaN x) && below lo x) +
         hit (negb (IsNaN x) && above hi x))
        st.1 (checkStdDev st f w x lo hi).1.
Proof.
  unfold checkStdDev, above, below.
  destruct (IsNaN x), lo as [t|], hi as [u|]; count_warns.
Qed.

(** X10. For a result of a configured feature the evaluator appends to
    its log one warning for every violation it counts (as many as the
    result raises against the thresholds) and after them exactly one
    summary at info level; for a feature that is not configured it
    appends a single warning. *)
Theorem processResult_log (a : Alerter) (m : Metrics) (r : AggregationResult) :
  (forall cfg, features a !! FeatureName r = Some cfg ->
     exists ws summary,
       logger (processResult a m r).1 = logger a ++ ws ++ [summary] /\
       length ws = totalHits r (Thresholds_of cfg) /\
       Forall (λ e, lvl e = WarnLevel) ws /\
       lvl summary = InfoLevel /\ text summary = "Feature stats processed") /\
  (features a !! FeatureName r = None ->
     exists w, logger (processResult a m r).1 = logger a ++ [w] /\
               lvl w = WarnLevel).
Proof.
  split.
  - intros cfg Hcfg. unfold processResult. rewrite Hcfg. cbv zeta.
    unfold logStats. cbn [fst snd logger].
    set (st0 := (logger a, _)).
    set (th := Thresholds_of cfg).
    pose proof (checkNullRate_warns st0 (FeatureName r) (WindowEnd r)
                  (nullRateVal r) (NullRate th)) as H1.
    set (st1 := checkNullRate _ _ _ _ _) in *.
    pose proof (checkMean_warns st1 (FeatureName r) (WindowEnd r)
                  (Mean r) (MeanMin th) (MeanMax th)) as H2.
    set (st2 := checkMean _ _ _ _ _ _) in *.
    pose proof (checkStdDev_warns st2 (FeatureName r) (WindowEnd r)
                  (stdDevVal r) (StdDevMin th) (StdDevMax th)) as H3.
    set (st3 := checkStdDev _ _ _ _ _ _) in *.
    rewrite nullRate_guard in H1.
    rewrite stdDev_guard_below, stdDev_guard_above in H3.
    destruct (warns_trans _ _ _ _ _ (warns_trans _ _ _ _ _ H1 H2) H3)
      as (ws & Hws & Hlen & Hall).
    eexists ws, _. split.
    { rewrite Hws. subst st0. cbn [fst]. by rewrite <- app_assoc. }
    split.
    { rewrite Hlen. unfold totalHits, meanLow, meanHigh, stdDevLow, stdDevHigh,
        meanComputable. lia. }
    split; [done|]. split; reflexivity.
  - intros Hnone. unfold processResult. rewrite Hnone. simpl. eauto.
Qed.

Lemma processResult_log_witness :
  length (logger (processResult alerter0 noMetrics result_x).1) =
    (length (logger alerter0) + 3)%nat.
Proof.
  destruct (processResult_log alerter0 noMetrics result_x) as [H _].
  destruct (H (mkFeatureConfig "x" "numerical" th_x) eq_refl)
    as (ws & summary & -> & Hlen & _).
  rewrite !length_app, Hlen. vm_compute. reflexivity.
Defined.

Lemma gauges_processResult a m r cfg :
  features a !! FeatureName r = Some cfg ->
  gauges (processResult a m r).2 =
    (<[FeatureName r := float64_of_int (Count r)]> (featureCount m),
     <[FeatureName r := float64_of_int (NullCount r)]> (featureNullCount m),
     setOrZero (featureNullRate m) (FeatureName r) (nullRateVal r),
     setOrZero (featureMean m) (FeatureName r) (Mean r),
     setOrZero (featureStdDev m) (FeatureName r) (stdDevVal r)).
Proof.
  intros Hcfg. unfold processResult. rewrite Hcfg. cbv zeta. unfold logStats.
  cbn [fst snd].
  by rewrite gauges_checkStdDev, gauges_checkMean, gauges_checkNullRate.
Qed.

Lemma features_processResult a m r :
  features (processResult a m r).1 = features a.
Proof. unfold processResult. by destruct (features a !! FeatureName r). Qed.

Lemma setOrZero_ne g n v n' : n' <> n -> setOrZero g n v !! n' = g !! n'.
Proof.
  intros Hne. unfold setOrZero.
  destruct (negb (IsNaN v)); by rewrite lookup_insert_ne.
Qed.

Lemma setOrZero_twice g n v1 v2 :
  setOrZero (setOrZero g n v1) n v2 = setOrZero g n v2.
Proof.
  unfold setOrZero.
  destruct (negb (IsNaN v1)), (negb (IsNaN v2)); apply insert_insert_eq.
Qed.

(** X11. Processing a result never touches the gauges of another
    feature. *)
Theorem processResult_other_gauges (a : Alerter) (m : Metrics)
    (r : AggregationResult) (n : string) :
  n <> FeatureName r ->
  gaugesOf (processResult a m r).2 n = gaugesOf m n.
Proof.
  intros Hne. destruct (features a !! FeatureName r) as [cfg|] eqn:Hcfg.
  - pose proof (gauges_processResult a m r cfg Hcfg) as Hg.
    unfold gauges in Hg. injection Hg as H1 H2 H3 H4 H5.
    unfold gaugesOf. rewrite H1, H2, H3, H4, H5.
    by rewrite !lookup_insert_ne, !setOrZero_ne by done.
  - unfold processResult. by rewrite Hcfg.
Qed.

Lemma processResult_other_gauges_witness :
  gaugesOf (processResult alerter0 noMetrics result_x).2 "y" =
    (None, None, None, None, None).
Proof.
  rewrite (processResult_other_gauges alerter0 noMetrics result_x "y");
    [reflexivity|discriminate].
Defined.

(** X12. The gauges show the latest window only: after two results of
    one configured feature they are what the second result alone would
    have left. *)
Theorem processResult_last_write_wins (a : Alerter) (m : Metrics)
    (r1 r2 : AggregationResult) (cfg : FeatureConfig) :
  FeatureName r1 = FeatureName r2 ->
  features a !! FeatureName r2 = Some cfg ->
  let after1 := processResult a m r1 in
  gauges (processResult after1.1 after1.2 r2).2 =
    gauges (processResult a m r2).2.
Proof.
  intros Hname Hcfg. cbv zeta.
  rewrite (gauges_processResult _ _ r2 cfg)
    by (by rewrite features_processResult).
  rewrite (gauges_processResult a m r2 cfg Hcfg).
  pose proof (gauges_processResult a m r1 cfg) as Hg.
  rewrite Hname in Hg. specialize (Hg Hcfg).
  unfold gauges in Hg. injection Hg as -> -> -> -> ->.
  by rewrite !insert_insert_eq, !setOrZero_twice.
Qed.

Lemma processResult_last_write_wins_witness :
  let after1 := processResult alerter0 noMetrics result_nulls in
  featureMean (processResult after1.1 after1.2 result_x).2 !! "x"
    = Some 10%float.
Proof.
  cbv zeta.
  pose proof (processResult_last_write_wins alerter0 noMetrics
                result_nulls result_x (mkFeatureConfig "x" "numerical" th_x)
                eq_refl eq_refl) as H.
  cbv zeta in H. apply (f_equal (λ t, t.1.2)) in H. unfold gauges in H.
  cbn [fst snd] in H. rewrite H. vm_compute. reflexivity.
Defined.

(** *** From the calculator to the evaluator *)

Lemma Prim2SF_not_nan x : PrimFloat.is_nan x = false -> Prim2SF x <> S754_nan.
Proof.
  intros H E. unfold PrimFloat.is_nan in H.
  rewrite FloatAxioms.eqb_spec, E in H. discriminate H.
Qed.

(** A number that is not below zero is at least zero. *)
Lemma leb_zero_of_not_neg x :
  PrimFloat.is_nan x = false -> (x <? 0)%float = false ->
  (0 <=? x)%float = true.
Proof.
  intros Hnan Hneg. apply Prim2SF_not_nan in Hnan.
  rewrite FloatAxioms.ltb_spec in Hneg. rewrite FloatAxioms.leb_spec.
  change (Prim2SF 0) with (S754_zero false) in *.
  unfold SFltb in Hneg. unfold SFleb.
  destruct (Prim2SF x) as [s|s| |s mx ex]; try done;
    destruct s; simpl in *; done.
Qed.

Lemma Sqrt_NaN x : IsNaN x = true -> Sqrt x = NaN.
Proof.
  intros H. apply is_nan_Prim2SF in H. unfold Sqrt.
  rewrite <- (SF2Prim_Prim2SF (PrimFloat.sqrt x)).
  rewrite FloatAxioms.sqrt_spec, H. reflexivity.
Qed.

(** X13. The evaluator's guard on the variance never rejects a number
    the calculator computed: for every result built at flush time the
    standard deviation is computable exactly when the variance is not
    NaN, and the evaluator's standard deviation is the square root of
    the variance. *)
Theorem emitted_variance_passes_guard (w : Z) (ws : windowInfo) (f : string)
    (s : FeatureStats) :
  let r := resultOf w ws f s in
  stdDevComputable r = negb (IsNaN (Variance r)) /\
  stdDevVal r = Sqrt (Variance r).
Proof.
  cbv zeta.
  assert (H : stdDevComputable (resultOf w ws f s) =
              negb (IsNaN (Variance (resultOf w ws f s)))).
  { unfold stdDevComputable.
    destruct (IsNaN (Variance (resultOf w ws f s))) eqn:Hnan; [done|].
    simpl. apply leb_zero_of_not_neg; [exact Hnan|].
    unfold resultOf. simpl. apply WindowFacts.variance_not_below_zero. }
  split; [exact H|].
  unfold stdDevVal. fold (stdDevComputable (resultOf w ws f s)). rewrite H.
  destruct (IsNaN (Variance (resultOf w ws f s))) eqn:Hnan; simpl; [|done].
  symmetry. by apply Sqrt_NaN.
Qed.



(** *** The two revisions of the Alerter *)

Lemma AlertLog_checkNullRate st f w rate th :
  (checkNullRate st f w rate th).1 = AlertLog.checkNullRate st.1 f w rate th.
Proof.
  unfold checkNullRate, AlertLog.checkNullRate.
  destruct th; [|done]. destruct (IsNaN rate); [done|].
  by destruct (_ <? _)%float.
Qed.

Lemma AlertLog_checkMean st f w x lo hi :
  (checkMean st f w x lo hi).1 = AlertLog.checkMean st.1 f w x lo hi.
Proof.
  unfold checkMean, AlertLog.checkMean.
  destruct (IsNaN x); [done|].
  destruct lo, hi; simpl;
    repeat match goal with
           | |- context [(?a <? ?b)%float] => destruct (a <? b)%float
           end; reflexivity.
Qed.

Lemma AlertLog_checkStdDev st f w x lo hi :
  (checkStdDev st f w x lo hi).1 = AlertLog.checkStdDev st.1 f w x lo hi.
Proof.
  unfold checkStdDev, AlertLog.checkStdDev.
  destruct (IsNaN x); [done|].
  destruct lo, hi; simpl;
    repeat match goal with
           | |- context [(?a <? ?b)%float] => destruct (a <? b)%float
           end; reflexivity.
Qed.

(** X15. For a configured feature the Alerter that also exports metrics
    (processResult) writes to the log exactly what the Alerter that only
    logs (checkThresholds) writes: the same warnings in the same order
    and the same summary. *)
Theorem processResult_logs_as_checkThresholds (a : Alerter) (m : Metrics)
    (r : AggregationResult) (cfg : FeatureConfig) :
  features a !! FeatureName r = Some cfg ->
  logger (processResult a m r).1 =
    AlertLog.logger
      (AlertLog.checkThresholds
         (AlertLog.mkAlerter (features a) (logger a)) r).
Proof.
  intros Hcfg. unfold processResult, AlertLog.checkThresholds.
  cbn [AlertLog.features AlertLog.logger]. rewrite Hcfg. cbv zeta.
  cbn [logger AlertLog.logger].
  unfold logStats, AlertLog.logStats. cbn [fst].
  by rewrite AlertLog_checkStdDev, AlertLog_checkMean, AlertLog_checkNullRate.
Qed.

Lemma processResult_logs_as_checkThresholds_witness :
  logger (processResult alerter0 noMetrics result_x).1 =
    AlertLog.logger
      (AlertLog.checkThresholds
         (AlertLog.NewAlerter [mkFeatureConfig "x" "numerical" th_x] [])
         result_x).
Proof.
  exact (processResult_logs_as_checkThresholds alerter0 noMetrics result_x
           (mkFeatureConfig "x" "numerical" th_x) eq_refl).
Defined.

End EvaluateFacts.

(** ** The stages around the calculator *)

Module StageFacts.
Import Go Message Config Log Settings Stages.

Lemma error_eqb_refl e : error_eqb e e = true.
Proof.
  induction e as [| |s|a IHa b IHb]; simpl; try done.
  - apply String.eqb_refl.
  - by rewrite IHa, IHb.
Qed.

Lemma Is_refl e : Is e e = true.
Proof. destruct e; simpl; by rewrite ?error_eqb_refl, ?String.eqb_refl. Qed.

Lemma Is_Wrap2 a b t :
  Is a t = true \/ Is b t = true -> Is (Wrap2 a b) t = true.
Proof.
  intros [H|H]; simpl; rewrite H; by rewrite ?orb_true_r.
Qed.




(** X17. New fails exactly when brokers, topic or group is empty, with
    an error that is both ErrConsumerCreationFailed and
    ErrInvalidKafkaConfig.  For a valid configuration it returns a
    pipeline whose calculator has the configured positive window size
    and features, no window yet, and an empty output channel of
    capacity 100, and whose evaluator knows exactly the configured
    feature names. *)
Theorem New_from_valid (s : Settings) (lg : list entry) :
  (forall e, Build.New s lg = inl e ->
     (Brokers (Kafka s) = [] \/ Topic (Kafka s) = "" \/ GroupID (Kafka s) = "")
     /\ Is e Consumer.ErrConsumerCreationFailed = true
     /\ Is e Consumer.ErrInvalidKafkaConfig = true) /\
  (valid s ->
     exists p, Build.New s lg = inr p /\
       0 < Calc.WindowSize (Build.calculator p) /\
       Calc.WindowSize (Build.calculator p) = WindowSize (Pipeline s) /\
       Calc.featuresToRun (Build.calculator p) = Features s /\
       Calc.windowStates (Build.calculator p) = ∅ /\
       Calc.output (Build.calculator p) = mkChan [] 100 /\
       (forall n, is_Some (Alert.features (Build.alerter p) !! n) <->
                  n ∈ Name <$> Features s)).
Proof.
  unfold Build.New, Consumer.NewConsumer. cbv zeta. split.
  - intros e. destruct (Brokers (Kafka s)) as [|b bs] eqn:Hb; simpl.
    { intros [= <-]. split; [by left|]. split; reflexivity. }
    destruct (String.eqb_spec (Topic (Kafka s)) ""); simpl.
    { intros [= <-]. split; [right; by left|]. split; reflexivity. }
    destruct (String.eqb_spec (GroupID (Kafka s)) ""); simpl; [|done].
    intros [= <-]. split; [right; by right|]. split; reflexivity.
  - intros (Hb & Ht & Hg & Hw).
    destruct (Brokers (Kafka s)) as [|b bs]; [done|]. simpl.
    destruct (String.eqb_spec (Topic (Kafka s)) ""); [done|].
    destruct (String.eqb_spec (GroupID (Kafka s)) ""); [done|]. simpl.
    eexists. split; [reflexivity|]. simpl. repeat split; try done.
    + intros H. by apply EvaluateFacts.insertAll_lookup_known in H.
    + intros H. by apply EvaluateFacts.insertAll_lookup_known.
Qed.

Lemma New_from_valid_witness :
  exists p, Build.New settings_ok [] = inr p /\
            Calc.WindowSize (Build.calculator p) = 60000000000 /\
            Calc.output (Build.calculator p) = mkChan [] 100.
Proof.
  destruct (New_from_valid settings_ok []) as [_ H].
  destruct H as (p & Hp & _ & Hw & _ & _ & Ho & _).
  - repeat split; discriminate.
  - exists p. rewrite Hw, Ho. by split.
Defined.

(** *** The consumer *)

Lemma fetchLoop_spec evs : forall c,
  let r := Consumer.fetchLoop c evs in
  r.2 <> Some None /\
  Consumer.output r.1 = Consumer.output c ++ delivered evs /\
  Consumer.cfg r.1 = Consumer.cfg c /\
  (r.2 = None <-> ends evs = false) /\
  (forall e, r.2 = Some (Some e) ->
     e = Canceled \/
     exists err, e = Wrap2 Consumer.ErrKafkaFetchFailed err /\
                 Is err Canceled = false /\ Is err DeadlineExceeded = false).
Proof.
  induction evs as [|ev evs IH]; intros c; cbv zeta.
  - simpl. rewrite app_nil_r. repeat split; try done.
  - destruct ev as [err|value [ctxErr|]]; simpl.
    + destruct (Is err Canceled || Is err DeadlineExceeded) eqn:Hc; simpl;
        rewrite app_nil_r; repeat split; try done.
      * intros e [= <-]. by left.
      * intros e [= <-]. right. apply orb_false_iff in Hc as [? ?]. eauto.
    + rewrite app_nil_r. repeat split; try done.
      intros e [= <-]. by left.
    + destruct (IH (Consumer.mkConsumer (Consumer.cfg c)
                      (Consumer.output c ++ [value]) (Consumer.logger c)))
        as (I1 & I2 & I3 & I4 & I5).
      cbv zeta in *. simpl in I2, I3. rewrite I2, <- app_assoc.
      repeat split; try done; by apply I4.
Qed.

Lemma Consumer_Run_spec c evs closeErr e :
  (Consumer.Run c evs closeErr).2 = Some (Some e) ->
  e = Canceled \/
  exists err, e = Wrap2 Consumer.ErrKafkaFetchFailed err /\
              Is err Canceled = false /\ Is err DeadlineExceeded = false.
Proof.
  unfold Consumer.Run.
  pose proof (fetchLoop_spec evs
    (Consumer.log c InfoLevel "Starting Kafka consumer loop..." [])) as H.
  cbv zeta in H. destruct (Consumer.fetchLoop _ evs) as [c1 r].
  destruct H as (_ & _ & _ & _ & H5). simpl in *.
  destruct r as [e'|]; simpl; [|done]. intros [= ->]. by apply H5.
Qed.

(** X18. Consumer.Run never returns nil.  When it returns, the error is
    context.Canceled (the fetch failed by cancellation or deadline, or a
    send was interrupted) or otherwise ErrKafkaFetchFailed wrapped
    around the error of the fetch; what it has put on its output channel
    are the payloads fetched before, in the order fetched. *)
Theorem Consumer_Run_returns (c : Consumer.Consumer)
    (evs : list Consumer.fetch) (closeErr : option error) :
  let r := Consumer.Run c evs closeErr in
  r.2 <> Some None /\
  Consumer.output r.1 = Consumer.output c ++ delivered evs /\
  (r.2 = None <-> ends evs = false) /\
  (forall e, r.2 = Some (Some e) ->
     e = Canceled \/
     exists err, e = Wrap2 Consumer.ErrKafkaFetchFailed err /\
                 Is err Canceled = false /\ Is err DeadlineExceeded = false /\
                 Is e Consumer.ErrKafkaFetchFailed = true /\
                 Is e err = true).
Proof.
  cbv zeta. unfold Consumer.Run.
  pose proof (fetchLoop_spec evs
    (Consumer.log c InfoLevel "Starting Kafka consumer loop..." [])) as H.
  cbv zeta in H. destruct (Consumer.fetchLoop _ evs) as [c1 r].
  destruct H as (H1 & H2 & _ & H4 & H5). simpl in *.
  destruct r as [e|]; simpl.
  - split; [done|]. split; [by destruct closeErr|]. split; [exact H4|].
    intros e' [= ->]. destruct (H5 e' eq_refl) as [->|(err & -> & Hc & Hd)];
      [by left|]. right. exists err. repeat split; try done.
    apply Is_Wrap2. right. apply Is_refl.
  - split; [done|]. split; [done|]. split; [exact H4|]. done.
Qed.

Lemma Consumer_Run_returns_witness :
  let r := Consumer.Run consumer0
             [Consumer.Fetched "a" None; Consumer.Fetched "b" None;
              Consumer.FetchError DeadlineExceeded;
              Consumer.Fetched "c" None] None in
  Consumer.output r.1 = ["a"; "b"] /\ r.2 = Some (Some Canceled).
Proof.
  cbv zeta.
  destruct (Consumer_Run_returns consumer0
              [Consumer.Fetched "a" None; Consumer.Fetched "b" None;
               Consumer.FetchError DeadlineExceeded;
               Consumer.Fetched "c" None] None) as (_ & H & _).
  split; [exact H|reflexivity].
Defined.

(** X19. From the consumer to Pipeline.Run: when Consumer.Run returns
    context.Canceled its goroutine puts nothing on the error channel;
    when it returns a fetch failure the goroutine sends it wrapped in
    ErrConsumerRunFailed, Pipeline.Run returns exactly that error, and
    the caller can recognise in it ErrConsumerRunFailed,
    ErrKafkaFetchFailed and the error of the fetch, but not
    context.Canceled. *)
Theorem fetch_failure_reaches_caller (c : Consumer.Consumer)
    (evs : list Consumer.fetch) (closeErr : option error) (e : error) :
  (Consumer.Run c evs closeErr).2 = Some (Some e) ->
  (e = Canceled /\ Pipe.runConsumer (Some e) = None) \/
  (exists err ret,
     e = Wrap2 Consumer.ErrKafkaFetchFailed err /\
     Pipe.runConsumer (Some e) = Some ret /\
     ret = Wrap2 Pipe.ErrConsumerRunFailed e /\
     Pipe.Run None [ret] (Some ret) /\
     (forall ret', Pipe.Run None [ret] ret' -> ret' = Some ret) /\
     Is ret Pipe.ErrConsumerRunFailed = true /\
     Is ret Consumer.ErrKafkaFetchFailed = true /\
     Is ret err = true /\ Is ret Canceled = false).
Proof.
  intros Hr.
  destruct (Consumer_Run_spec c evs closeErr e Hr)
    as [->|(err & -> & Hc & Hd)]; [by left|].
  right. eexists err, _. split; [done|].
  assert (Hn : Is (Wrap2 Consumer.ErrKafkaFetchFailed err) Canceled = false)
    by (simpl; by rewrite Hc).
  assert (Hn' : Is (Wrap2 Pipe.ErrConsumerRunFailed
                     (Wrap2 Consumer.ErrKafkaFetchFailed err)) Canceled = false)
    by (simpl; by rewrite Hc).
  unfold Pipe.runConsumer. rewrite Hn. simpl negb. cbv iota.
  split; [reflexivity|]. split; [reflexivity|].
  split; [|split; [|split; [|split; [|split]]]].
  - pose proof (Pipe.Run_received None
      [Wrap2 Pipe.ErrConsumerRunFailed (Wrap2 Consumer.ErrKafkaFetchFailed err)]
      _ [] eq_refl) as H.
    unfold Pipe.result_of in H. by rewrite Hn' in H.
  - intros ret' H. inversion H as [ctxErr Hctx|e' rest Hq]; [done|].
    injection Hq as <- _. unfold Pipe.result_of. by rewrite Hn'.
  - apply Is_Wrap2. left. apply Is_refl.
  - apply Is_Wrap2. right. apply Is_Wrap2. left. apply Is_refl.
  - apply Is_Wrap2. right. apply Is_Wrap2. right. apply Is_refl.
  - exact Hn'.
Qed.

Lemma fetch_failure_reaches_caller_witness :
  Pipe.Run None
    [Wrap2 Pipe.ErrConsumerRunFailed
       (Wrap2 Consumer.ErrKafkaFetchFailed (Sentinel "EOF"))]
    (Some (Wrap2 Pipe.ErrConsumerRunFailed
             (Wrap2 Consumer.ErrKafkaFetchFailed (Sentinel "EOF")))).
Proof.
  destruct (fetch_failure_reaches_caller consumer0
              [Consumer.FetchError (Sentinel "EOF")] None
              (Wrap2 Consumer.ErrKafkaFetchFailed (Sentinel "EOF")) eq_refl)
    as [[H _]|(err & ret & He & _ & -> & H & _)]; [discriminate H|].
  exact H.
Defined.

(** *** Cancellation, deadline and the exit status *)

Section Deadline.
Variable rangeW : gmap Z Calc.windowInfo -> list (Z * Calc.windowInfo).
Variable rangeF :
  gmap string Calc.FeatureStats -> list (string * Calc.FeatureStats).
Variable Sprintf_v : value -> string.

(** X20. Calculator.Run returns the error of the context when the
    context ends.  If that is context.Canceled the calculator stage
    reports nothing and Pipeline.Run, released by the context, returns
    nil; if it is context.DeadlineExceeded the calculator stage reports
    ErrCalculatorRunFailed, Pipeline.Run returns an error whichever
    branch released it, and the exit status is 1, although the
    consumer treats the same deadline as a cancellation. *)
Theorem deadline_is_reported_as_failure (c : Calc.Calculator) (now : Z)
    (ctxErr : error) (rest : list Calc.event) :
  (Calc.loop rangeW rangeF Sprintf_v c (Calc.CtxDone now ctxErr :: rest)).2
    = Some (Some ctxErr) /\
  (ctxErr = Canceled ->
     Pipe.runCalculator (Some ctxErr) = None /\
     forall ret, Pipe.Run (Some ctxErr) [] ret ->
                 ret = None /\ Build.exitStatus ret = 0) /\
  (ctxErr = DeadlineExceeded ->
     Pipe.runCalculator (Some ctxErr) =
       Some (Wrap2 Pipe.ErrCalculatorRunFailed DeadlineExceeded) /\
     (forall c0 closeErr,
        (Consumer.Run c0 [Consumer.FetchError ctxErr] closeErr).2
          = Some (Some Canceled)) /\
     forall ret,
       Pipe.Run (Some ctxErr)
         [Wrap2 Pipe.ErrCalculatorRunFailed DeadlineExceeded] ret ->
       ret <> None /\ Build.exitStatus ret = 1).
Proof.
  split; [reflexivity|]. split.
  - intros ->. split; [reflexivity|].
    intros ret H. inversion H as [e He|e r Hq]; [|done].
    injection He as <-. by split.
  - intros ->. split; [reflexivity|]. split; [reflexivity|].
    intros ret H. inversion H as [e He|e r Hq].
    + injection He as <-. by split.
    + injection Hq as <- _. by split.
Qed.
End Deadline.

(** X21. Pipeline.Run never returns an error that is context.Canceled,
    whatever the context and the error channel hold.  So the exit status
    of the program is 1 exactly when Run returned an error, and the
    branch of main that reports a shutdown "gracefully via signal" is
    never taken. *)
Theorem Run_never_returns_cancelled (ctx : option error)
    (pipelineErr : list error) (ret : option error) :
  Pipe.Run ctx pipelineErr ret ->
  (forall e, ret = Some e -> Is e Canceled = false) /\
  (Build.exitStatus ret = 1 <-> ret <> None) /\
  Build.shutdownReason ret <> "gracefully via signal".
Proof.
  intros H.
  assert (Hret : exists first, ret = Pipe.result_of (Some first)).
  { inversion H; eauto. }
  destruct Hret as [first ->]. unfold Pipe.result_of.
  destruct (Is first Canceled) eqn:Hc; simpl.
  - split; [done|]. split; [|done]. split; [done|]. by intros [].
  - rewrite Hc. simpl. split; [by intros e [= <-]|]. by split.
Qed.

Lemma Run_never_returns_cancelled_witness :
  Build.exitStatus None = 0 /\ Build.shutdownReason None = "gracefully".
Proof.
  destruct (Run_never_returns_cancelled (Some Canceled) [] None) as (_ & H & _).
  - by apply (Pipe.Run_ctx_done (Some Canceled) [] Canceled).
  - split; reflexivity.
Defined.

(** *** The parser stage *)

Section Parse.
Variable json_Unmarshal : string -> error + gmap string value.
Variable ErrJSONUnmarshalFailed : error.

Lemma parseLoop_uninterrupted raws : forall p,
  let p' := Parser.parseLoop json_Unmarshal ErrJSONUnmarshalFailed p
              (((λ d, Parser.RawMessage d None) <$> raws)
               ++ [Parser.RawClosed]) in
  Parser.parsed p' = Parser.parsed p ++ decoded json_Unmarshal raws /\
  Parser.closed p' = true /\
  length (warnings (Parser.plog p'))
    = (length (warnings (Parser.plog p))
       + (length raws - length (decoded json_Unmarshal raws)))%nat /\
  (length (decoded json_Unmarshal raws) <= length raws)%nat.
Proof.
  unfold warnings.
  induction raws as [|d raws IH]; intros p; cbv zeta.
  - simpl. rewrite app_nil_r, !List.filter_app. simpl.
    rewrite !app_nil_r. repeat split; lia.
  - simpl. unfold Parser.ParseDynamicJSON, decoded. simpl.
    destruct (json_Unmarshal d) as [err|m]; simpl.
    + destruct (IH (Parser.plogged p WarnLevel
                      "Failed to parse message, skipping"
                      [ErrorText.zapError
                         (Wrap2 ErrJSONUnmarshalFailed err)]))
        as (I1 & I2 & I3 & I4).
      cbv zeta in *. unfold Parser.ParseDynamicJSON, decoded in *.
      unfold fmap in I1, I2, I3. rewrite I1, I2, I3. simpl. rewrite List.filter_app. simpl.
      rewrite length_app. simpl. repeat split; lia.
    + destruct (IH (Parser.mkParser (Parser.parsed p ++ [m])
                      (Parser.plog p) (Parser.closed p)))
        as (I1 & I2 & I3 & I4).
      cbv zeta in *. unfold Parser.ParseDynamicJSON, decoded in *.
      unfold fmap in I1, I2, I3. rewrite I1, I2, I3. simpl. rewrite <- app_assoc. simpl.
      repeat split; lia.
Qed.

(** X22. The parser stage, run to the end of its input without being
    cancelled, forwards exactly the payloads that decode, decoded and
    in arrival order, adds one warning to the log for each payload
    that does not decode, and closes the parsed channel. *)
Theorem runParser_forwards_decodable (lg : list entry) (raws : list string) :
  let p := Parser.runParser json_Unmarshal ErrJSONUnmarshalFailed lg
             (((λ d, Parser.RawMessage d None) <$> raws)
              ++ [Parser.RawClosed]) in
  Parser.parsed p = decoded json_Unmarshal raws /\
  Parser.closed p = true /\
  length (warnings (Parser.plog p))
    = (length (warnings lg)
       + (length raws - length (decoded json_Unmarshal raws)))%nat /\
  (length (decoded json_Unmarshal raws) <= length raws)%nat.
Proof.
  cbv zeta. unfold Parser.runParser.
  destruct (parseLoop_uninterrupted raws
              (Parser.mkParser [] (lg ++ [mkEntry DebugLevel
                 "Starting parser goroutine..." []]) false))
    as (H1 & H2 & H3 & H4).
  cbv zeta in *. simpl in *. rewrite H1, H2, H3.
  split; [done|]. split; [done|]. split; [|done].
  unfold warnings. rewrite List.filter_app, length_app. simpl. lia.
Qed.
End Parse.

End StageFacts.

(* ===================================================================== *)
(** ** Facts: the time accessor, the snippet and the logger *)
(* ===================================================================== *)

Module OutputFacts.
Import Go Message Settings Outputs.

Section Time.
Variable time_Parse : string -> string -> option Z.

Lemma firstParse_Some fs timeStr t :
  Timestamps.firstParse time_Parse fs timeStr = Some t <->
  exists before layout after,
    fs = before ++ layout :: after /\
    Forall (λ g, time_Parse g timeStr = None) before /\
    time_Parse layout timeStr = Some t.
Proof.
  induction fs as [|f fs IH]; simpl.
  - split; [done|]. intros (b & l & a & H & _). by destruct b.
  - destruct (time_Parse f timeStr) as [t'|] eqn:Hf.
    + split.
      * intros [= ->]. exists [], f, fs. by repeat split.
      * intros (b & l & a & H & Hb & Hl).
        destruct b as [|g b]; simpl in H; injection H as -> ->.
        -- congruence.
        -- inversion Hb; congruence.
    + rewrite IH. split.
      * intros (b & l & a & -> & Hb & Hl). exists (f :: b), l, a.
        repeat split; [by constructor|done].
      * intros (b & l & a & H & Hb & Hl).
        destruct b as [|g b]; simpl in H; injection H as -> ->.
        -- congruence.
        -- exists b, l, a. inversion Hb. by repeat split.
Qed.

Lemma firstParse_None fs timeStr :
  Timestamps.firstParse time_Parse fs timeStr = None <->
  Forall (λ g, time_Parse g timeStr = None) fs.
Proof.
  induction fs as [|f fs IH]; simpl.
  - split; [constructor|done].
  - destruct (time_Parse f timeStr) eqn:Hf.
    + split; [done|]. intros H. inversion H. congruence.
    + rewrite IH. split; [by constructor|]. intros H. by inversion H.
Qed.

(** X23. GetTime returns a time exactly when the field holds a string
    (so a value that is present and not null) that one of the three
    layouts parses, and the time is the one of the first layout, in
    the order RFC3339Nano, RFC3339, "2006-01-02 15:04:05", that parses
    it: the third entry of the list in the code repeats RFC3339 and
    never decides.  It reports failure exactly when the field is
    absent, null, not a string, or a string none of the three layouts
    parses. *)
Theorem GetTime_first_layout (dm : gmap string value) (key : string) :
  (forall t,
     Timestamps.GetTime time_Parse dm key = Some t <->
     exists timeStr before layout after,
       dm !! key = Some (VString timeStr) /\
       layouts = before ++ layout :: after /\
       Forall (λ g, time_Parse g timeStr = None) before /\
       time_Parse layout timeStr = Some t) /\
  (Timestamps.GetTime time_Parse dm key = None <->
     forall timeStr, dm !! key = Some (VString timeStr) ->
       Forall (λ g, time_Parse g timeStr = None) layouts) /\
  (forall t, Timestamps.GetTime time_Parse dm key = Some t ->
     HasNonNull dm key = true).
Proof.
  assert (Hsame : forall timeStr,
    Timestamps.firstParse time_Parse Timestamps.formats timeStr =
    Timestamps.firstParse time_Parse layouts timeStr).
  { intros timeStr. unfold Timestamps.formats, layouts. simpl.
    destruct (time_Parse Timestamps.RFC3339Nano timeStr); [done|].
    change "2006-01-02T15:04:05Z07:00" with Timestamps.RFC3339.
    by destruct (time_Parse Timestamps.RFC3339 timeStr). }
  unfold Timestamps.GetTime, HasNonNull.
  destruct (dm !! key) as [v|] eqn:Hv.
  2:{ split; [|split]; [|done|done].
      intros t. split; [done|]. by intros (s & _ & _ & _ & H & _). }
  destruct v as [|f|n|n|f|s|b|r];
    try (split; [|split]; [|done|done];
         intros t; split; [done|]; by intros (s' & _ & _ & _ & H & _)).
  rewrite Hsame. split; [|split].
  - intros t. rewrite firstParse_Some. split.
    + intros (b & l & a & H). by exists s, b, l, a.
    + intros (s' & b & l & a & [= <-] & H). by exists b, l, a.
  - rewrite firstParse_None. split.
    + by intros H s' [= <-].
    + intros H. by apply H.
  - done.
Qed.
End Time.

Lemma length_append (s1 s2 : string) :
  String.length (s1 +:+ s2) = (String.length s1 + String.length s2)%nat.
Proof.
  induction s1 as [|a s1 IH]; [done|].
  change (S (String.length (s1 +:+ s2))
          = S (String.length s1 + String.length s2)).
  by rewrite IH.
Qed.

Section Snippet.
Variable Sprintf_v : value -> string.

(** X24. The snippet GetFieldSnippet returns is never longer than
    maxLength + 3 bytes for a field that is present and a positive
    maxLength, 3 bytes for a non-positive one and 9 bytes for a
    missing field, however long the rendering of the value is. *)
Theorem GetFieldSnippet_bounded (dm : gmap string value)
    (fieldName : string) (maxLength : Z) :
  Z.of_nat (String.length (GetFieldSnippet Sprintf_v dm fieldName maxLength))
    <= Z.max 9 (Z.max 0 maxLength + 3).
Proof.
  unfold GetFieldSnippet. destruct (dm !! fieldName) as [v|]; [|simpl; lia].
  cbv zeta. destruct (Z.leb_spec maxLength 0); [simpl; lia|].
  destruct (Z.ltb_spec maxLength (Z.of_nat (String.length (Sprintf_v v))));
    [|lia].
  destruct (MessageFacts.substring_prefix (Z.to_nat maxLength) (Sprintf_v v))
    as [Hlen _]; [lia|].
  unfold slice_to. rewrite length_append, Hlen. simpl. lia.
Qed.
End Snippet.

Section Logger.
Variable ToLower : string -> string.
Variable UnmarshalText : string -> option Z.

Let isConsole (cfg : LogConfig) : bool :=
  String.eqb (ToLower (Format cfg)) "console".

(** X25. A logger NewLogger returns has at least one output, and it
    writes a record below its level nowhere and a record at or above
    its level to every configured output once: with the console
    format to exactly one of the two console streams, the first below
    the error level and the second from the error level up, and to
    the file when file logging is enabled.  Its level is the parsed
    one, or the info level when the text does not parse. *)
Theorem NewLogger_routes_by_level (cfg : LogConfig)
    (mkdirErr : option string) (lg : Logging.Logger) :
  Logging.NewLogger ToLower UnmarshalText cfg mkdirErr = inr lg ->
  Logging.level_of lg =
    default Logging.InfoLevel (UnmarshalText (ToLower (Level cfg))) /\
  (isConsole cfg = true \/ FileLoggingEnabled cfg = true) /\
  forall lvl,
    writers lg lvl =
      if Logging.level_of lg <=? lvl then
        (if isConsole cfg
         then [if lvl <? Logging.ErrorLevel
               then Logging.ConsoleInfo (Logging.level_of lg)
               else Logging.ConsoleError (Logging.level_of lg)]
         else [])
        ++ (if FileLoggingEnabled cfg
            then [Logging.File (Logging.level_of lg)] else [])
      else [].
Proof.
  unfold Logging.NewLogger, writers, isConsole.
  assert (E : (let '(l, failed) :=
                 Logging.parseLevel ToLower UnmarshalText (Level cfg) in
               if failed then Logging.InfoLevel else l)
              = default Logging.InfoLevel
                  (UnmarshalText (ToLower (Level cfg)))).
  { unfold Logging.parseLevel. by destruct (UnmarshalText _). }
  cbv zeta. rewrite E. clear E.
  generalize (default Logging.InfoLevel
                (UnmarshalText (ToLower (Level cfg)))) as level.
  intros level.
  destruct (String.eqb (ToLower (Format cfg)) "console") eqn:Hc;
    destruct (FileLoggingEnabled cfg) eqn:Hf;
    try destruct mkdirErr; simpl; intros H; try discriminate;
    injection H as <-; simpl;
    (split; [reflexivity|]); (split; [tauto|]); intros lvl;
    unfold Logging.ErrorLevel;
    destruct (Z.leb_spec level lvl), (Z.ltb_spec lvl 2),
      (Z.leb_spec 2 lvl); simpl; try reflexivity; lia.
Qed.

(** X26. NewLogger fails in exactly two cases: file logging is enabled
    and the log directory cannot be created, whatever the console
    setting, or neither the console format nor file logging is
    configured.  A level text that does not parse never makes it
    fail. *)
Theorem NewLogger_fails_iff (cfg : LogConfig) (mkdirErr : option string) :
  (forall text,
     Logging.NewLogger ToLower UnmarshalText cfg mkdirErr
       = inl (Logging.MkdirFailed (Directory cfg) text) <->
     FileLoggingEnabled cfg = true /\ mkdirErr = Some text) /\
  (Logging.NewLogger ToLower UnmarshalText cfg mkdirErr
     = inl Logging.NoOutputs <->
   isConsole cfg = false /\ FileLoggingEnabled cfg = false) /\
  ((exists lg, Logging.NewLogger ToLower UnmarshalText cfg mkdirErr = inr lg)
   <-> (FileLoggingEnabled cfg = true -> mkdirErr = None) /\
       (isConsole cfg = true \/ FileLoggingEnabled cfg = true)).
Proof.
  unfold Logging.NewLogger, isConsole.
  destruct (String.eqb (ToLower (Format cfg)) "console") eqn:Hc;
    destruct (FileLoggingEnabled cfg) eqn:Hf;
    destruct mkdirErr as [text0|]; simpl;
    (split; [intros text; split; [intros H; try discriminate;
                                   injection H as ->; done
                                 |intros [H1 H2]; try discriminate;
                                   injection H2 as ->; done]|]);
    (split; [split; [intros H; discriminate || done
                    |intros [H1 H2]; discriminate || done]|]);
    (split; [intros [lg H]; try discriminate; (split; [done|tauto])
            |intros [H1 H2]; try (by eexists);
             try (specialize (H1 eq_refl); discriminate);
             destruct H2; discriminate]).
Qed.
End Logger.

Lemma NewLogger_routes_by_level_witness :
  exists lg,
    Logging.NewLogger id levelOf Stages.log_console None = inr lg /\
    writers lg Logging.DebugLevel = [] /\
    writers lg Logging.WarnLevel = [Logging.ConsoleInfo Logging.InfoLevel] /\
    writers lg Logging.ErrorLevel = [Logging.ConsoleError Logging.InfoLevel].
Proof.
  eexists. split; [reflexivity|].
  destruct (NewLogger_routes_by_level id levelOf Stages.log_console None _
              eq_refl) as (_ & _ & H).
  rewrite !H. repeat split; reflexivity.
Defined.

End OutputFacts.
